(** * Gmail Pub/Sub relay: history reconciliation, MIME decoding, watch renewal

    A shallow embedding of the core of the repository
    ([src/gmail_handler.py], [src/utils/email_utils.py],
    [src/process_email.py], [src/watch_manager.py]) and the properties
    its specification states about it, followed by the configuration
    readers ([src/config.py]), the notifications
    ([src/utils/telegram_utils.py]) and the endpoints ([main.py]) with
    further properties of the code.

    Conventions of the embedding.
    - A Python [str] is a [string] (a sequence of bytes); case mapping,
      whitespace and digits are the ASCII ones.
    - A value read from a JSON document is a [json]; Python's [None] is
      [JNull].  JSON numbers are the integral ones.
    - A dictionary read with [d.get(k, default)] has an optional field
      [k]; a dictionary read with [d[k]] has a required one.
    - Code that logs, calls the remote service, reads or writes the state
      file is written in a small monad: the state of the object, the
      exception raised (if any) and the sequence of observable events
      (log records, remote calls, consumer calls). *)

From Stdlib Require Import ZArith String Ascii List Bool Lia DecimalString.
From Stdlib Require DecimalPos.
From stdpp Require Import gmap strings list.

Local Open Scope string_scope.
Local Open Scope Z_scope.
Local Open Scope list_scope.

(** ** Python values, truthiness, [int()], [str.strip()], exceptions *)

Module Py.

#[warnings="-register-all"] Inductive json : Type :=
| JNull
| JBool (b : bool)
| JNum (z : Z)
| JStr (s : string)
| JList (l : list json)
| JObj (m : gmap string json).

(** [bool(v)], the test behind [if v] and [v if v else ...]. *)
Definition truthy (v : json) : bool :=
  match v with
  | JNull => false
  | JBool b => b
  | JNum z => negb (z =? 0)
  | JStr s => negb (String.eqb s "")
  | JList l => negb (Nat.eqb (length l) 0)
  | JObj m => negb (Nat.eqb (size m) 0)
  end.

Definition str_truthy (s : string) : bool := negb (String.eqb s "").

(** [googleapiclient.errors.HttpError.error_details]: the text of the
    error, or the list of detail dictionaries of the response. *)
Record detail : Type := Detail {
  reason : option string;
  detail_message : option string
}.

Inductive error_details : Type :=
| DetailsText (s : string)
| DetailsList (l : list detail).

Inductive exn : Type :=
| HttpError (d : error_details)
| ValueError
| JSONDecodeError          (* a subclass of ValueError *)
| TypeError
| AttributeError
| BinasciiError
| OtherException (what : string).

(** Whitespace as [str.strip()] and [int()] see it, on ASCII:
    tab, line feed, vertical tab, form feed, carriage return, the four
    separators 0x1c-0x1f, and space. *)
Definition is_space (a : ascii) : bool :=
  let n := N_of_ascii a in
  ((9 <=? n) && (n <=? 13) || (28 <=? n) && (n <=? 32))%N.

Fixpoint lstrip (s : string) : string :=
  match s with
  | String a rest => if is_space a then lstrip rest else s
  | EmptyString => EmptyString
  end.

Fixpoint rstrip (s : string) : string :=
  match s with
  | String a rest =>
      match rstrip rest with
      | EmptyString => if is_space a then EmptyString else String a EmptyString
      | r => String a r
      end
  | EmptyString => EmptyString
  end.

Definition strip (s : string) : string := rstrip (lstrip s).

Definition lower_ascii (a : ascii) : ascii :=
  let n := N_of_ascii a in
  if ((65 <=? n) && (n <=? 90))%N then ascii_of_N (n + 32) else a.

Fixpoint lower (s : string) : string :=
  match s with
  | String a rest => String (lower_ascii a) (lower rest)
  | EmptyString => EmptyString
  end.

Definition digit_of (a : ascii) : option Z :=
  let n := Z.of_N (N_of_ascii a) in
  if (48 <=? n) && (n <=? 57) then Some (n - 48) else None.

(** Decimal digits, where single underscores may separate digits.
    [after_digit] tells whether the previous character was a digit. *)
Fixpoint parse_digits (s : string) (acc : Z) (after_digit : bool) : option Z :=
  match s with
  | EmptyString => if after_digit then Some acc else None
  | String a rest =>
      match digit_of a with
      | Some d => parse_digits rest (10 * acc + d) true
      | None =>
          if Ascii.eqb a "_" && after_digit
          then parse_digits rest acc false
          else None
      end
  end.

(** [int(s)] for a string, base ten: surrounding whitespace, one
    optional sign, digits.  [None] is [ValueError].  The interpreter's
    bound on the number of digits is not modelled. *)
Definition int_of_str (s : string) : option Z :=
  match strip s with
  | String "+" rest => parse_digits rest 0 false
  | String "-" rest => option_map Z.opp (parse_digits rest 0 false)
  | t => parse_digits t 0 false
  end.

(** [int(v)] for a value read from JSON. *)
Definition int (v : json) : exn + Z :=
  match v with
  | JStr s => match int_of_str s with Some n => inr n | None => inl ValueError end
  | JNum z => inr z
  | JBool b => inr (if b then 1 else 0)
  | JNull | JList _ | JObj _ => inl TypeError
  end.

(** [d.get(k)] and [d[k] = v]; on a value that is not a dictionary the
    first raises [AttributeError], the second [TypeError]. *)
Definition dict_get (d : json) (k : string) : exn + json :=
  match d with
  | JObj m => inr (default JNull (m !! k))
  | _ => inl AttributeError
  end.

Definition dict_set (d : json) (k : string) (v : json) : exn + json :=
  match d with
  | JObj m => inr (JObj (<[k := v]> m))
  | _ => inl TypeError
  end.

(** *** Computations: state, exception, events *)

Section Monad.
Context {S E : Type}.

Definition M (A : Type) : Type := S -> (exn + A) * S * list E.

Definition ret {A} (a : A) : M A := fun s => (inr a, s, []).

Definition raise {A} (e : exn) : M A := fun s => (inl e, s, []).

Definition bind {A B} (c : M A) (f : A -> M B) : M B :=
  fun s =>
    match c s with
    | (inl e, s1, l1) => (inl e, s1, l1)
    | (inr a, s1, l1) =>
        match f a s1 with
        | (r, s2, l2) => (r, s2, l1 ++ l2)
        end
    end.

(** [try: c  except Exception as e: h e] *)
Definition try_except {A} (c : M A) (h : exn -> M A) : M A :=
  fun s =>
    match c s with
    | (inl e, s1, l1) =>
        match h e s1 with
        | (r, s2, l2) => (r, s2, l1 ++ l2)
        end
    | done => done
    end.

Definition emit (e : E) : M unit := fun s => (inr tt, s, [e]).

Definition get_state : M S := fun s => (inr s, s, []).

Definition put_state (s' : S) : M unit := fun _ => (inr tt, s', []).

Definition lift {A} (r : exn + A) : M A :=
  match r with inl e => raise e | inr a => ret a end.

(** [for x in l: acc = body x acc] *)
Fixpoint for_each {A B} (l : list A) (acc : B) (body : A -> B -> M B) : M B :=
  match l with
  | [] => ret acc
  | x :: rest => bind (body x acc) (fun acc' => for_each rest acc' body)
  end.
End Monad.

Definition result {S E A} (r : (exn + A) * S * list E) : exn + A := fst (fst r).
Definition final {S E A} (r : (exn + A) * S * list E) : S := snd (fst r).
Definition events {S E A} (r : (exn + A) * S * list E) : list E := snd r.

End Py.

Import Py.

Declare Scope py_scope.
Delimit Scope py_scope with py.
Notation "x <- c ;; k" := (bind c (fun x => k))
  (at level 100, c at next level, right associativity) : py_scope.
Notation "c ;; k" := (bind c (fun _ => k))
  (at level 100, right associativity) : py_scope.
Local Open Scope py_scope.

(** ** The Gmail message model: what [messages.get(format='full')] and
    [history.list] return *)

Module Gmail.

Record header : Type := Header {
  h_name : string;
  h_value : string
}.

Record part_body : Type := Body {
  body_size : option Z;
  data : option string;
  attachmentId : option string
}.

(** A MIME part; every field is read with [part.get(...)] and may be
    absent. *)
#[warnings="-register-all"] Inductive part : Type := Part {
  mimeType : option string;
  filename : option string;
  body : option part_body;
  headers : option (list header);
  parts : option (list part)
}.

(** [{}] read as a part, and as a body. *)
Definition empty_part : part := Part None None None None None.
Definition empty_body : part_body := Body None None None.

Record message : Type := Message {
  msg_id : option string;
  threadId : option string;
  labelIds : option (list string);
  snippet : option string;
  payload : option part
}.

(** One entry of [record['messagesAdded']]: [entry['message']['id']]. *)
Record message_added : Type := MessageAdded {
  added_id : string
}.

Record history_record : Type := HistoryRecord {
  messagesAdded : option (list message_added)
}.

Record history_response : Type := HistoryResponse {
  history : option (list history_record)
}.

End Gmail.

Import Gmail.

(** ** [src/utils/email_utils.py] *)

Module EmailUtils.

(** What [extract_attachments] appends for a part. *)
Record attachment : Type := Attachment {
  att_filename : string;
  att_mimeType : string;
  att_attachmentId : string;
  att_size : Z
}.

Section Decoders.
(** [base64.urlsafe_b64decode(data).decode('utf-8', errors='ignore')];
    the decoder raises on malformed input. *)
Variable b64decode_utf8 : string -> exn + string.
(** [_extract_clean_text_from_html]; it catches its own exceptions and
    always returns a string. *)
Variable extract_clean_text_from_html : string -> string.

(** The inner function of [extract_message_body].  The warning logged
    when a part fails to decode is not part of the returned value and
    is left out. *)
Fixpoint extract_text_from_part (p : part) (html_part strip_html : bool) : string :=
  match p with
  | Part mt _ b _ ps =>
      let mime_type := default "" mt in
      let text :=
        if String.eqb mime_type "text/plain" && negb html_part then
          let data := default "" (data (default empty_body b)) in
          if str_truthy data then
            match b64decode_utf8 data with
            | inr decoded => decoded
            | inl _ => ""
            end
          else ""
        else if String.eqb mime_type "text/html" && html_part then
          let data := default "" (data (default empty_body b)) in
          if str_truthy data then
            match b64decode_utf8 data with
            | inr decoded =>
                if strip_html then extract_clean_text_from_html decoded
                else decoded
            | inl _ => ""
            end
          else ""
        else "" in
      match ps with
      | Some subparts =>
          fold_left
            (fun text subpart =>
               String.append text (extract_text_from_part subpart html_part strip_html))
            subparts text
      | None => text
      end
  end.

(** No call inside the outer [try] can raise on a message of this
    model, so its handler (which returns the empty string) is never
    entered. *)
Definition extract_message_body (m : message) (html_part strip_html : bool) : string :=
  let payload := default empty_part (payload m) in
  strip (extract_text_from_part payload html_part strip_html).

End Decoders.

(** The inner function of [extract_attachments]; [attachments] is the
    list it appends to. *)
Fixpoint find_attachments_in_part (p : part) (attachments : list attachment)
  : list attachment :=
  match p with
  | Part mt fn b _ ps =>
      let filename := default "" fn in
      let attachments :=
        if str_truthy filename then
          let body := default empty_body b in
          match attachmentId body with
          | Some aid =>
              if str_truthy aid then
                attachments ++
                  [ {| att_filename := filename;
                       att_mimeType := default "" mt;
                       att_attachmentId := aid;
                       att_size := default 0 (body_size body) |} ]
              else attachments
          | None => attachments
          end
        else attachments in
      match ps with
      | Some subparts =>
          fold_left (fun acc subpart => find_attachments_in_part subpart acc)
            subparts attachments
      | None => attachments
      end
  end.

Definition extract_attachments (m : message) : list attachment :=
  let payload := default empty_part (payload m) in
  find_attachments_in_part payload [].

(** *** The vocabulary of the statements

    The remaining definitions of the module follow the words of the
    specification, not the source. *)

(** Traversal order: a part, then its sub-parts from first to last, each
    with its own sub-parts. *)
Fixpoint all_parts (p : part) : list part :=
  match p with
  | Part _ _ _ _ ps =>
      p :: match ps with
           | Some subparts => flat_map all_parts subparts
           | None => []
           end
  end.

(** A part that matches the requested kind and carries non-empty
    [body.data]. *)
Definition matching_part (html_part : bool) (p : part) : bool :=
  String.eqb (default "" (mimeType p))
    (if html_part then "text/html" else "text/plain")
  && str_truthy (default "" (data (default empty_body (body p)))).

(** The reference of a part that carries a non-empty [filename] and a
    non-empty [body.attachmentId]; [None] for any other part. *)
Definition attachment_of (p : part) : option attachment :=
  match filename p, attachmentId (default empty_body (body p)) with
  | Some fn, Some aid =>
      if str_truthy fn && str_truthy aid then
        Some {| att_filename := fn;
                att_mimeType := default "" (mimeType p);
                att_attachmentId := aid;
                att_size := default 0 (body_size (default empty_body (body p))) |}
      else None
  | _, _ => None
  end.

End EmailUtils.

(** ** [src/process_email.py]: the body handed on with a message *)

Module ProcessEmail.
Import EmailUtils.

Section Decoders.
Variable b64decode_utf8 : string -> exn + string.
Variable extract_clean_text_from_html : string -> string.

(** Of [process_email] only the choice of the body is modelled:
    [extract_message_body(message, html_part=True, strip_html=True)], and
    [extract_message_body(message, html_part=False)] when that is empty. *)
Definition html_body (m : message) : string :=
  extract_message_body b64decode_utf8 extract_clean_text_from_html m true true.

Definition plain_body (m : message) : string :=
  extract_message_body b64decode_utf8 extract_clean_text_from_html m false false.

(** [body_text] of [process_email]. *)
Definition body_text (m : message) : string :=
  let body_text := html_body m in
  if negb (str_truthy body_text) then plain_body m else body_text.
End Decoders.

End ProcessEmail.

(** ** [src/gmail_handler.py] *)

Module GmailHandler.

(** The state file [gmail_state.json] when it exists: text that
    [json.load] rejects, or the document it parses to. *)
Inductive contents : Type :=
| Garbage
| Doc (j : json).

(** [self.state_file] on disk and [self.service]. *)
Record handler : Type := Handler {
  state_file : option contents;
  service : bool
}.

Inductive level : Type := INFO | WARNING | ERROR.

(** The log records of the class, one constructor per call of the
    logger. *)
Inductive log_record : Type :=
| ErrorReadingStateFile (e : exn)
| SavedLastProcessed (history_id : string)
| ErrorSavingStateFile (e : exn)
| LastProcessedHistoryId (last_processed_id : json)
| IncomingHistoryId (history_id : string)
| NotNewerSkipping (incoming_id last_id : Z)
| CouldNotCompare
| ProcessingHistoryFromTo (start_history_id : json) (end_history_id : string)
| FoundHistoryRecords (n : nat)
| NoNewHistoryRecords
| ProcessingNewMessage (message_id : string)
| ProcessedNewMessages (messages_processed : nat)
| ApiErrorProcessingHistory (e : exn)
| UnexpectedErrorProcessingHistory (e : exn)
| MessageHasNoId (message_id : string)
| ApiErrorFetchingMessage (message_id : string) (e : exn)
| UnexpectedErrorFetchingMessage (message_id : string) (e : exn)
| SkippedDueToLabelFilter (message_id : string)
| ProcessingMessage (message_id subject sender : string) (labelIds : list string)
| SuccessfullyProcessed (message_id : string)
| ErrorProcessingMessage (message_id : string) (e : exn).

(** What a call does that can be observed from outside. *)
Inductive event : Type :=
| Log (l : level) (r : log_record)
| HistoryList (startHistoryId : json)      (* users().history().list(...).execute() *)
| MessagesGet (id : string)                (* users().messages().get(...).execute() *)
| ProcessEmail (m : message).              (* process_email(message) *)

(** The collaborators of the handler: the remote mail service, the
    configured label identifiers and the consumer.  A remote call
    returns or raises; the consumer returns or raises.  During one call
    the service answers a request the same way each time it is made. *)
Record collaborators : Type := Collaborators {
  history_list : json -> exn + history_response;
  messages_get : string -> exn + message;
  get_gmail_watch_label_ids : list string;
  process_email : message -> option exn
}.

Definition key : string := "last_history_id".

Definition is_HttpError (e : exn) : bool :=
  match e with HttpError _ => true | _ => false end.

Section Methods.
Variable env : collaborators.

Local Abbreviation M := (@Py.M handler event).

Definition log (l : level) (r : log_record) : M unit := emit (Log l r).

(** [build] is called once and the client kept. *)
Definition get_service : M unit :=
  s <- get_state ;;
  if negb (service s)
  then put_state {| state_file := state_file s; service := true |}
  else ret tt.

Definition exists_ : M bool :=
  s <- get_state ;;
  ret (match state_file s with Some _ => true | None => false end).

(** [json.load(f)] on the state file. *)
Definition json_load : M json :=
  s <- get_state ;;
  match state_file s with
  | Some (Doc j) => ret j
  | Some Garbage => raise JSONDecodeError
  | None => raise (OtherException "FileNotFoundError")
  end.

(** [json.dump(state, f)] on the state file opened for writing. *)
Definition json_dump (state : json) : M unit :=
  s <- get_state ;;
  put_state {| state_file := Some (Doc state); service := service s |}.

Definition get_last_processed_history_id : M json :=
  returned <-
    try_except
      (ex <- exists_ ;;
       if ex then
         state <- json_load ;;
         v <- lift (dict_get state key) ;;
         ret (Some v)
       else ret None)
      (fun e => log WARNING (ErrorReadingStateFile e) ;; ret None) ;;
  match returned with
  | Some v => ret v
  | None => ret JNull
  end.

Definition save_last_processed_history_id (history_id : string) : M unit :=
  try_except
    (ex <- exists_ ;;
     state <- (if ex then json_load else ret (JObj ∅)) ;;
     state <- lift (dict_set state key (JStr history_id)) ;;
     json_dump state ;;
     log INFO (SavedLastProcessed history_id))
    (fun e => log ERROR (ErrorSavingStateFile e)).

Definition fetch_message (message_id : string) : M (option message) :=
  try_except
    (get_service ;;
     emit (MessagesGet message_id) ;;
     message <- lift (messages_get env message_id) ;;
     if negb (str_truthy (default "" (msg_id message))) then
       log INFO (MessageHasNoId message_id) ;;
       ret None
     else ret (Some message))
    (fun e =>
       if is_HttpError e then
         log ERROR (ApiErrorFetchingMessage message_id e) ;; ret None
       else
         log ERROR (UnexpectedErrorFetchingMessage message_id e) ;; ret None).

(** [next((h['value'] for h in headers if h['name'].lower() == name), dflt)] *)
Definition header_value (headers : list header) (name dflt : string) : string :=
  match List.find (fun h => String.eqb (lower (h_name h)) name) headers with
  | Some h => h_value h
  | None => dflt
  end.

(** [label in labelIds] *)
Definition label_in (labelIds : list string) (label : string) : bool :=
  existsb (String.eqb label) labelIds.

Definition process_message (message : message) : M unit :=
  try_except
    (let message_id := default "unknown" (msg_id message) in
     let headers :=
       default [] (headers (default empty_part (payload message))) in
     let subject := header_value headers "subject" "No Subject" in
     let sender := header_value headers "from" "Unknown Sender" in
     let labelIds := default [] (labelIds message) in
     let requestedLabels := get_gmail_watch_label_ids env in
     if negb (Nat.eqb (length requestedLabels) 0)
        && negb (existsb (label_in labelIds) requestedLabels)
     then log INFO (SkippedDueToLabelFilter message_id)
     else
       log INFO (ProcessingMessage message_id subject sender labelIds) ;;
       emit (ProcessEmail message) ;;
       match process_email env message with
       | Some e => raise e
       | None => log INFO (SuccessfullyProcessed message_id)
       end)
    (fun e =>
       log ERROR (ErrorProcessingMessage (default "unknown" (msg_id message)) e)).

(** [int(last_processed_id) if last_processed_id else 0] *)
Definition last_id_of (last_processed_id : json) : exn + Z :=
  if truthy last_processed_id then int last_processed_id else inr 0.

(** The body of the two nested [for] loops for one added message. *)
Definition process_added (message_added : message_added) (messages_processed : nat)
  : M nat :=
  let message_id := added_id message_added in
  log INFO (ProcessingNewMessage message_id) ;;
  message <- fetch_message message_id ;;
  match message with
  | Some message =>
      process_message message ;;
      ret (S messages_processed)
  | None => ret messages_processed
  end.

(** The method returns [None] on every path.  The flag computed by the
    inner [try] is [false] where the source returns from inside it.
    [history_id] is a [str], so [str(history_id)] is [history_id].  The
    [print] of the records goes to the standard output and is not among
    the events. *)
Definition process_history (history_id : string) : M unit :=
  try_except
    (get_service ;;
     last_processed_id <- get_last_processed_history_id ;;
     log INFO (LastProcessedHistoryId last_processed_id) ;;
     log INFO (IncomingHistoryId history_id) ;;
     newer <-
       try_except
         (incoming_id <- lift (int (JStr history_id)) ;;
          last_id <- lift (last_id_of last_processed_id) ;;
          if incoming_id <=? last_id then
            log INFO (NotNewerSkipping incoming_id last_id) ;;
            ret false
          else ret true)
         (fun e =>
            match e with
            | ValueError | JSONDecodeError | TypeError =>
                log WARNING CouldNotCompare ;; ret true
            | _ => raise e
            end) ;;
     if negb newer then ret tt else
     let start_history_id :=
       if truthy last_processed_id then last_processed_id else JStr history_id in
     let end_history_id := history_id in
     log INFO (ProcessingHistoryFromTo start_history_id end_history_id) ;;
     emit (HistoryList start_history_id) ;;
     history_response <- lift (history_list env start_history_id) ;;
     let history_records := default [] (history history_response) in
     log INFO (FoundHistoryRecords (length history_records)) ;;
     if Nat.eqb (length history_records) 0 then
       log INFO NoNewHistoryRecords ;;
       save_last_processed_history_id history_id
     else
       messages_processed <-
         for_each history_records 0%nat
           (fun record messages_processed =>
              for_each (default [] (messagesAdded record)) messages_processed
                process_added) ;;
       log INFO (ProcessedNewMessages messages_processed) ;;
       save_last_processed_history_id history_id)
    (fun e =>
       if is_HttpError e then log ERROR (ApiErrorProcessingHistory e)
       else log ERROR (UnexpectedErrorProcessingHistory e)).

End Methods.

(** *** The vocabulary of the statements

    Nothing from here to the end of the module is in the source: these
    are the notions the specification and the theorems speak of, defined
    on the events, results and state files of the model above. *)

Definition deliveries (evs : list event) : list message :=
  omap (fun e => match e with ProcessEmail m => Some m | _ => None end) evs.

Definition history_fetches (evs : list event) : list json :=
  omap (fun e => match e with HistoryList start => Some start | _ => None end) evs.

Definition message_fetches (evs : list event) : list string :=
  omap (fun e => match e with MessagesGet id => Some id | _ => None end) evs.

(** The three results the specification names, told apart by the last
    log record of a call. *)
Inductive reconcile_result : Type := Skipped | Completed | Failed.

Definition result_of (evs : list event) : option reconcile_result :=
  match last evs with
  | Some (Log INFO (NotNewerSkipping _ _)) => Some Skipped
  | Some (Log INFO (SavedLastProcessed _)) => Some Completed
  | Some (Log ERROR (ErrorSavingStateFile _)) => Some Completed
  | Some (Log ERROR (ApiErrorProcessingHistory _)) => Some Failed
  | Some (Log ERROR (UnexpectedErrorProcessingHistory _)) => Some Failed
  | _ => None
  end.

(** The stored cursor: what [get_last_processed_history_id] returns. *)
Definition stored_cursor (f : option contents) : json :=
  match f with
  | Some (Doc (JObj m)) => default JNull (m !! key)
  | _ => JNull
  end.

(** The warning [get_last_processed_history_id] logs on a state file it
    cannot read. *)
Definition reading_log (f : option contents) : list event :=
  match f with
  | Some Garbage => [Log WARNING (ErrorReadingStateFile JSONDecodeError)]
  | Some (Doc (JObj _)) | None => []
  | Some (Doc _) => [Log WARNING (ErrorReadingStateFile AttributeError)]
  end.

(** The state file after [save_last_processed_history_id], and what the
    method logs. *)
Definition written (history_id : string) (f : option contents) : option contents :=
  match f with
  | None => Some (Doc (JObj {[ key := JStr history_id ]}))
  | Some (Doc (JObj m)) => Some (Doc (JObj (<[ key := JStr history_id ]> m)))
  | Some Garbage => Some Garbage
  | Some (Doc j) => Some (Doc j)
  end.

Definition saving_log (history_id : string) (f : option contents) : list event :=
  match f with
  | None | Some (Doc (JObj _)) => [Log INFO (SavedLastProcessed history_id)]
  | Some Garbage => [Log ERROR (ErrorSavingStateFile JSONDecodeError)]
  | Some (Doc _) => [Log ERROR (ErrorSavingStateFile TypeError)]
  end.

(** The value stored under a key of the state record, when the file
    holds one. *)
Definition entry (f : option contents) (k : string) : option json :=
  match f with
  | Some (Doc (JObj m)) => m !! k
  | _ => None
  end.

(** A fetch that hands a message on: the remote call returns, and the
    message it returns carries a non-empty [id]. *)
Definition fetched (env : collaborators) (message_id : string) : option message :=
  match messages_get env message_id with
  | inr message =>
      if str_truthy (default "" (msg_id message)) then Some message else None
  | inl _ => None
  end.

(** The label filter: no label identifier is configured, or one of the
    configured identifiers is among the labels of the message. *)
Definition passes_label_filter (env : collaborators) (m : message) : bool :=
  Nat.eqb (length (get_gmail_watch_label_ids env)) 0
  || existsb (label_in (default [] (labelIds m))) (get_gmail_watch_label_ids env).

(** The freshness check: both cursors parse and the incoming one is not
    above the stored one. *)
Definition not_newer (history_id : string) (last_processed_id : json) : bool :=
  match int (JStr history_id), last_id_of last_processed_id with
  | inr incoming_id, inr last_id => incoming_id <=? last_id
  | _, _ => false
  end.

(** One of the two cursors does not parse: [int] raises on the incoming
    cursor, or on a stored cursor that is present. *)
Definition parse_fails (history_id : string) (last_processed_id : json) : bool :=
  match int (JStr history_id), last_id_of last_processed_id with
  | inr _, inr _ => false
  | _, _ => true
  end.

(** The record the top-level handlers of [process_history] log. *)
Definition top_level_error (e : exn) : event :=
  if is_HttpError e then Log ERROR (ApiErrorProcessingHistory e)
  else Log ERROR (UnexpectedErrorProcessingHistory e).

(** Where the history fetch starts. *)
Definition start_of (history_id : string) (last_processed_id : json) : json :=
  if truthy last_processed_id then last_processed_id else JStr history_id.

(** What every call logs first, and what a call that goes on to the
    history fetch has logged and called when the fetch is issued. *)
Definition prologue (history_id : string) (f : option contents) : list event :=
  reading_log f
  ++ [Log INFO (LastProcessedHistoryId (stored_cursor f));
      Log INFO (IncomingHistoryId history_id)].

Definition opening (history_id : string) (f : option contents) : list event :=
  prologue history_id f
  ++ (if parse_fails history_id (stored_cursor f)
      then [Log WARNING CouldNotCompare] else [])
  ++ [Log INFO (ProcessingHistoryFromTo
                  (start_of history_id (stored_cursor f)) history_id);
      HistoryList (start_of history_id (stored_cursor f))].

(** The identifiers of the added messages of a response, in the order of
    the two loops. *)
Definition added_ids (history_records : list history_record) : list string :=
  flat_map (fun record => map added_id (default [] (messagesAdded record)))
    history_records.

(** What the specification says of a skipped call, for a call [r] made
    on the handler [s]: it returns, its result is [Skipped], it issues no
    history fetch and no message fetch, delivers nothing, and leaves the
    state file as it is. *)
Definition skipped_call (s : handler) (r : (exn + unit) * handler * list event) : Prop :=
  result r = inr tt
  /\ result_of (events r) = Some Skipped
  /\ history_fetches (events r) = []
  /\ message_fetches (events r) = []
  /\ deliveries (events r) = []
  /\ state_file (final r) = state_file s.

(** A call that saved its cursor: the record of the save is the last of
    its log. *)
Definition saved (evs : list event) : bool :=
  match last evs with
  | Some (Log INFO (SavedLastProcessed _)) => true
  | _ => false
  end.


Section Calls.
Variable env : collaborators.


End Calls.

(** A state file the handler can read and write: none yet, or a JSON
    object. *)
Definition usable (f : option contents) : bool :=
  match f with
  | None | Some (Doc (JObj _)) => true
  | _ => false
  end.

End GmailHandler.

(** ** [src/watch_manager.py] *)

Module WatchManager.

Record manager : Type := Manager {
  service : bool
}.

Record watch_request : Type := WatchRequest {
  topicName : string;
  req_labelIds : list string;
  labelFilterAction : string
}.

Record watch_response : Type := WatchResponse {
  historyId : option string;
  expiration : option string
}.

Inductive level : Type := INFO | WARNING | ERROR.

Inductive log_record : Type :=
| BuildingService
| ServiceBuilt
| RenewingWatchForTopic (topic_resource : string)
| AttemptingToStopExisting
| ExistingWatchStopped
| NoExistingWatchToStop
| ErrorStoppingExisting (e : exn)
| StopErrorReason (error_reason : string)
| WatchingLabelIds (gmail_labels : list string)
| WatchingLabelNames (gmail_labels : list string)
| UsingLabelNamesInsteadOfIds
| ExecutingWatchRequest
| ExecutionComplete
| ResponseWas (response : watch_response)
| WatchRenewed (history_id expiration : option string)
| ApiErrorRenewing (e : exn)
| WatchErrorReason (error_reason : string)
| WatchErrorMessage (message : string)
| UnexpectedErrorRenewing (e : exn).

Inductive event : Type :=
| Log (l : level) (r : log_record)
| UsersStop                                 (* users().stop(userId='me').execute() *)
| UsersWatch (body : watch_request).        (* users().watch(userId='me', body=...).execute() *)

(** The remote service and the configuration. *)
Record collaborators : Type := Collaborators {
  users_stop : exn + unit;
  users_watch : watch_request -> exn + watch_response;
  get_project_id : string;
  get_topic_name : string;
  get_gmail_watch_label_ids : list string;
  get_gmail_watch_labels : list string
}.

(** The dictionary [renew_watch] returns: with [status] ['success'],
    or ['error'] with or without an [error_reason]. *)
Inductive renew_result : Type :=
| StatusSuccess (historyId expiration : option string)
| StatusErrorReason (error : exn) (error_reason : string)
| StatusError (error : exn).

Definition is_HttpError (e : exn) : bool :=
  match e with HttpError _ => true | _ => false end.

(** [e.error_details[0] if e.error_details else {}] followed by
    [.get(k, dflt)]: the first element of a non-empty text is a
    one-character [str], which has no [get]. *)
Definition first_detail_get (d : error_details) (k : detail -> option string)
    (dflt : string) : exn + string :=
  match d with
  | DetailsText EmptyString => inr dflt
  | DetailsText (String _ _) => inl AttributeError
  | DetailsList [] => inr dflt
  | DetailsList (first :: _) => inr (default dflt (k first))
  end.

Definition details_of (e : exn) : error_details :=
  match e with HttpError d => d | _ => DetailsText "" end.

Section Methods.
Variable env : collaborators.

Local Abbreviation M := (@Py.M manager event).

Definition log (l : level) (r : log_record) : M unit := emit (Log l r).

Definition get_service : M unit :=
  s <- get_state ;;
  if negb (service s) then
    log INFO BuildingService ;;
    put_state {| service := true |} ;;
    log INFO ServiceBuilt
  else ret tt.

Definition renew_watch : M renew_result :=
  try_except
    (get_service ;;
     let project_id := get_project_id env in
     let topic_name := get_topic_name env in
     let topic_resource :=
       String.append "projects/"
         (String.append project_id (String.append "/topics/" topic_name)) in
     log INFO (RenewingWatchForTopic topic_resource) ;;
     try_except
       (log INFO AttemptingToStopExisting ;;
        emit UsersStop ;;
        lift (users_stop env) ;;
        log INFO ExistingWatchStopped)
       (fun stop_error =>
          if is_HttpError stop_error then
            error_reason <-
              lift (first_detail_get (details_of stop_error) reason "unknown") ;;
            if String.eqb error_reason "failedPrecondition" then
              log INFO NoExistingWatchToStop
            else
              log WARNING (ErrorStoppingExisting stop_error) ;;
              log WARNING (StopErrorReason error_reason)
          else raise stop_error) ;;
     let gmail_label_ids := get_gmail_watch_label_ids env in
     gmail_labels <-
       (if negb (Nat.eqb (length gmail_label_ids) 0) then
          log INFO (WatchingLabelIds gmail_label_ids) ;;
          ret gmail_label_ids
        else
          let gmail_labels := get_gmail_watch_labels env in
          log INFO (WatchingLabelNames gmail_labels) ;;
          log WARNING UsingLabelNamesInsteadOfIds ;;
          ret gmail_labels) ;;
     let watch_request :=
       {| topicName := topic_resource;
          req_labelIds := gmail_labels;
          labelFilterAction := "include" |} in
     log INFO ExecutingWatchRequest ;;
     emit (UsersWatch watch_request) ;;
     response <- lift (users_watch env watch_request) ;;
     log INFO ExecutionComplete ;;
     log INFO (ResponseWas response) ;;
     let history_id := historyId response in
     let expiration := expiration response in
     log INFO (WatchRenewed history_id expiration) ;;
     ret (StatusSuccess history_id expiration))
    (fun e =>
       if is_HttpError e then
         log ERROR (ApiErrorRenewing e) ;;
         error_reason <- lift (first_detail_get (details_of e) reason "unknown") ;;
         log ERROR (WatchErrorReason error_reason) ;;
         message <- lift (first_detail_get (details_of e) detail_message "N/A") ;;
         log ERROR (WatchErrorMessage message) ;;
         ret (StatusErrorReason e error_reason)
       else
         log ERROR (UnexpectedErrorRenewing e) ;;
         ret (StatusError e)).

End Methods.

(** The remote calls among a call's events, in order. *)
Definition remote_calls (evs : list event) : list event :=
  List.filter (fun e => match e with Log _ _ => false | _ => true end) evs.

(** The same collaborators, with another answer to [users().stop()]. *)
Definition with_stop (env : collaborators) (answer : exn + unit) : collaborators :=
  {| users_stop := answer;
     users_watch := users_watch env;
     get_project_id := get_project_id env;
     get_topic_name := get_topic_name env;
     get_gmail_watch_label_ids := get_gmail_watch_label_ids env;
     get_gmail_watch_labels := get_gmail_watch_labels env |}.

End WatchManager.

(** ** Sample messages, responses and collaborators *)

Module Samples.
Import EmailUtils.

Definition plain_part (payload64 : string) : part :=
  Part (Some "text/plain") (Some "") (Some (Body (Some 5) (Some payload64) None))
    None None.

Definition html_part (payload64 : string) : part :=
  Part (Some "text/html") (Some "") (Some (Body (Some 12) (Some payload64) None))
    None None.

Definition pdf_part (name attachment : string) : part :=
  Part (Some "application/pdf") (Some name)
    (Some (Body (Some 2048) None (Some attachment))) None None.

(** The decoders on the two payloads used below: "Hello" and
    "<p>Hello</p>" in web-safe base64. *)
Definition b64decode_utf8 (payload64 : string) : exn + string :=
  if String.eqb payload64 "SGVsbG8=" then inr "Hello"
  else if String.eqb payload64 "PHA-SGVsbG88L3A-" then inr "<p>Hello</p>"
  else inl BinasciiError.

Definition extract_clean_text_from_html (html : string) : string :=
  if String.eqb html "<p>Hello</p>" then "Hello" else html.

Definition mail (id : string) (labels : list string) (parts : list part) : message :=
  {| msg_id := Some id;
     threadId := Some "t1";
     labelIds := Some labels;
     snippet := Some "Hello";
     payload :=
       Some (Part (Some "multipart/mixed") (Some "") (Some (Body (Some 0) None None))
               (Some [Header "Subject" "Test"; Header "From" "a@b.com"])
               (Some parts)) |}.

Definition m1 : message := mail "m1" ["INBOX"; "UNREAD"] [plain_part "SGVsbG8="].
Definition m3 : message :=
  mail "m3" ["INBOX"; "IMPORTANT"]
    [plain_part "SGVsbG8="; html_part "PHA-SGVsbG88L3A-"].
Definition invoice : message :=
  mail "m4" ["INBOX"]
    [plain_part "SGVsbG8="; html_part "PHA-SGVsbG88L3A-";
     pdf_part "invoice.pdf" "att-1"].
Definition twice_attached : message :=
  mail "m5" ["INBOX"]
    [pdf_part "a.pdf" "att-1"; pdf_part "" "att-2"; pdf_part "b.pdf" "";
     pdf_part "a.pdf" "att-1"].

Definition remote_messages (id : string) : exn + message :=
  if String.eqb id "m1" then inr m1
  else if String.eqb id "m2" then inl (HttpError (DetailsText "backend error"))
  else if String.eqb id "m3" then inr m3
  else inl (OtherException "ConnectionError").

Definition one_added : history_response :=
  HistoryResponse (Some [HistoryRecord (Some [MessageAdded "m1"])]).

Definition three_added : history_response :=
  HistoryResponse
    (Some [HistoryRecord (Some [MessageAdded "m1"; MessageAdded "m2"]);
           HistoryRecord None;
           HistoryRecord (Some [MessageAdded "m3"])]).

Definition nothing_added : history_response := HistoryResponse None.

Definition mailbox (answer : exn + history_response) (labels : list string)
  : GmailHandler.collaborators :=
  {| GmailHandler.history_list := fun _ => answer;
     GmailHandler.messages_get := remote_messages;
     GmailHandler.get_gmail_watch_label_ids := labels;
     GmailHandler.process_email := fun _ => None |}.

(** State files: one holding the cursor "1000" beside another key, one
    that is not JSON. *)
Definition at_1000 : GmailHandler.handler :=
  GmailHandler.Handler
    (Some (GmailHandler.Doc
             (JObj (<[ "last_history_id" := JStr "1000" ]>
                      {[ "owner" := JStr "ops" ]}))))
    false.


Definition unreadable : GmailHandler.handler :=
  GmailHandler.Handler (Some GmailHandler.Garbage) false.

Definition no_watch_to_stop : exn :=
  HttpError (DetailsList [Detail (Some "failedPrecondition") (Some "No watch")]).

Definition gmail (stop : exn + unit) : WatchManager.collaborators :=
  {| WatchManager.users_stop := stop;
     WatchManager.users_watch :=
       fun _ => inr (WatchManager.WatchResponse (Some "1050") (Some "1700000000000"));
     WatchManager.get_project_id := "proj";
     WatchManager.get_topic_name := "gmail-incoming";
     WatchManager.get_gmail_watch_label_ids := ["Label_1"];
     WatchManager.get_gmail_watch_labels := ["INBOX"] |}.

End Samples.

(** ** [src/utils/email_utils.py], continued: the header index *)

Module EmailHeaders.
Import EmailUtils.

(** [get_headers]; a header of this model has both fields, so
    [header.get('name', '')] and [header.get('value', '')] read them. *)
Definition get_headers (m : message) : gmap string string :=
  let payload := default empty_part (payload m) in
  let header_list := default [] (headers payload) in
  fold_left
    (fun headers header => <[ lower (h_name header) := h_value header ]> headers)
    header_list ∅.

(** *** The vocabulary of the statements *)

(** What one part adds to the text of [extract_text_from_part]. *)
Definition contribution (b64decode_utf8 : string -> exn + string)
    (extract_clean_text_from_html : string -> string)
    (html_part strip_html : bool) (p : part) : string :=
  if matching_part html_part p then
    match b64decode_utf8 (default "" (data (default empty_body (body p)))) with
    | inr decoded =>
        if html_part && strip_html then extract_clean_text_from_html decoded
        else decoded
    | inl _ => ""
    end
  else "".

Definition concat_all (l : list string) : string :=
  fold_right String.append "" l.

End EmailHeaders.

(** ** [src/watch_manager.py], continued: [stop_watch], [get_watch_status] *)

Module WatchManagerMore.
Import WatchManager.

(** What [users().getProfile(userId='me').execute()] returns; the four
    fields are read with [profile.get(...)]. *)
Record profile : Type := Profile {
  emailAddress : option string;
  messagesTotal : option Z;
  threadsTotal : option Z;
  profile_historyId : option string
}.

Inductive log_record : Type :=
| StoppingWatch
| WatchStopped
| ApiErrorStopping (e : exn)
| UnexpectedErrorStopping (e : exn)
| ApiErrorGettingProfile (e : exn)
| ProfileErrorReason (error_reason : string)
| ProfileErrorMessage (message : string)
| UnexpectedErrorGettingProfile (e : exn).

(** The events of the two methods: those they share with [renew_watch]
    (building the client, the remote stop), their own log records, and
    the remote profile query. *)
Inductive event : Type :=
| Shared (e : WatchManager.event)
| Log (l : level) (r : log_record)
| UsersGetProfile.            (* users().getProfile(userId='me').execute() *)

(** The dictionaries the two methods return. *)
Inductive stop_result : Type :=
| StopSuccess                                  (* status 'success', message 'Watch stopped' *)
| StopError (error : exn).                     (* status 'error' *)

Inductive status_result : Type :=
| ProfileSuccess (p : profile)                 (* the four fields, status 'success' *)
| ProfileStatusErrorReason (error : exn) (error_reason : string)
| ProfileStatusError (error : exn).

Section Methods.
Variable env : collaborators.
Variable users_getProfile : exn + profile.

Local Abbreviation M := (@Py.M manager event).

Definition log (l : level) (r : log_record) : M unit := emit (Log l r).

(** [get_service] of the class, with its events among those of this
    module. *)
Definition get_service : M unit :=
  fun s =>
    match WatchManager.get_service s with
    | (r, s', evs) => (r, s', map Shared evs)
    end.

Definition stop_watch : M stop_result :=
  try_except
    (get_service ;;
     log INFO StoppingWatch ;;
     emit (Shared UsersStop) ;;
     lift (users_stop env) ;;
     log INFO WatchStopped ;;
     ret StopSuccess)
    (fun e =>
       if is_HttpError e then
         log ERROR (ApiErrorStopping e) ;; ret (StopError e)
       else
         log ERROR (UnexpectedErrorStopping e) ;; ret (StopError e)).

Definition get_watch_status : M status_result :=
  try_except
    (get_service ;;
     emit UsersGetProfile ;;
     profile <- lift users_getProfile ;;
     ret (ProfileSuccess profile))
    (fun e =>
       if is_HttpError e then
         log ERROR (ApiErrorGettingProfile e) ;;
         error_reason <- lift (first_detail_get (details_of e) reason "unknown") ;;
         log ERROR (ProfileErrorReason error_reason) ;;
         message <- lift (first_detail_get (details_of e) detail_message "N/A") ;;
         log ERROR (ProfileErrorMessage message) ;;
         ret (ProfileStatusErrorReason e error_reason)
       else
         log ERROR (UnexpectedErrorGettingProfile e) ;;
         ret (ProfileStatusError e)).

End Methods.

(** *** The vocabulary of the statements *)

(** The remote calls among the events of the two methods. *)
Definition remote_calls (evs : list event) : list event :=
  List.filter
    (fun e => match e with
              | Shared (WatchManager.Log _ _) | Log _ _ => false
              | _ => true
              end) evs.

(** An HTTP error whose [error_details] is a non-empty text. *)
Definition text_details (e : exn) : bool :=
  match e with
  | HttpError (DetailsText (String _ _)) => true
  | _ => false
  end.

(** The request [renew_watch] builds from the configuration. *)
Definition watch_request_of (env : collaborators) : watch_request :=
  {| topicName :=
       String.append "projects/"
         (String.append (get_project_id env)
            (String.append "/topics/" (get_topic_name env)));
     req_labelIds :=
       match get_gmail_watch_label_ids env with
       | [] => get_gmail_watch_labels env
       | ids => ids
       end;
     labelFilterAction := "include" |}.

End WatchManagerMore.

(** ** [src/config.py]: the watched labels and the [.env] file *)

Module Config.

(** [s.split(sep)] for a separator of one character. *)
Fixpoint split (sep : ascii) (s : string) : list string :=
  match s with
  | EmptyString => [EmptyString]
  | String c rest =>
      if Ascii.eqb c sep then EmptyString :: split sep rest
      else match split sep rest with
           | piece :: pieces => String c piece :: pieces
           | [] => [String c EmptyString]
           end
  end.

(** [[x.strip() for x in s.split(',') if x.strip()]] *)
Definition stripped_pieces (s : string) : list string :=
  map strip (List.filter (fun x => str_truthy (strip x)) (split "," s)).

(** [get_gmail_watch_labels] and [get_gmail_watch_label_ids], as
    functions of the environment variable they read ([None] when it is
    not set). *)
Definition get_gmail_watch_labels (GMAIL_WATCH_LABELS : option string) : list string :=
  let gmail_labels_env := default "INBOX" GMAIL_WATCH_LABELS in
  stripped_pieces gmail_labels_env.

Definition get_gmail_watch_label_ids (GMAIL_WATCH_LABEL_IDS : option string)
  : list string :=
  let label_ids_env := default "" GMAIL_WATCH_LABEL_IDS in
  if negb (str_truthy label_ids_env) then []
  else stripped_pieces label_ids_env.

(** [','.join(label_ids)], the value [set_gmail_watch_label_ids] writes. *)
Definition label_ids_str (label_ids : list string) : string :=
  String.concat "," label_ids.

Definition newline : string := String "010" EmptyString.

(** [f'{key}={value}\n'] *)
Definition env_line (key value : string) : string :=
  String.append key (String.append "=" (String.append value newline)).

(** The loop of [_update_env_file]: the lines with the first line whose
    stripped text starts with [key=] replaced, or [None] when the loop
    ends without a [break]. *)
Fixpoint replace_first (key value : string) (lines : list string)
  : option (list string) :=
  match lines with
  | [] => None
  | line :: rest =>
      if String.prefix (String.append key "=") (strip line)
      then Some (env_line key value :: rest)
      else option_map (cons line) (replace_first key value rest)
  end.

(** [_update_env_file]: from the lines of [.env] ([None] when the file
    does not exist) to the lines written back. *)
Definition _update_env_file (key value : string) (env_file : option (list string))
  : list string :=
  let lines := default [] env_file in
  match replace_first key value lines with
  | Some lines => lines
  | None => lines ++ [env_line key value]
  end.

(** [set_gmail_watch_label_ids] *)
Definition set_gmail_watch_label_ids (label_ids : list string)
    (env_file : option (list string)) : list string :=
  let label_ids_str := label_ids_str label_ids in
  _update_env_file "GMAIL_WATCH_LABEL_IDS" label_ids_str env_file.

(** *** The vocabulary of the statements *)

(** A label as the two readers return it: not empty, without surrounding
    whitespace, without a comma. *)
Definition clean_label (x : string) : Prop :=
  x <> "" /\ strip x = x /\ ~ In ","%char (list_ascii_of_string x).

(** A string that is empty or starts with a character that is not
    whitespace. *)
Definition starts_clean (s : string) : bool :=
  match s with
  | String a _ => negb (is_space a)
  | EmptyString => true
  end.

End Config.

(** ** [src/utils/telegram_utils.py] *)

Module Telegram.

(** [s.replace(old, new)] for [old] of one character. *)
Fixpoint replace_char (old : ascii) (new : string) (s : string) : string :=
  match s with
  | EmptyString => EmptyString
  | String c rest =>
      if Ascii.eqb c old then String.append new (replace_char old new rest)
      else String c (replace_char old new rest)
  end.

Definition double_quote : ascii := ascii_of_nat 34.

(** [html.escape(s, quote=True)] of the standard library: five
    replacements, the ampersand first. *)
Definition html_escape (s : string) : string :=
  let s := replace_char "&" "&amp;" s in
  let s := replace_char "<" "&lt;" s in
  let s := replace_char ">" "&gt;" s in
  let s := replace_char double_quote "&quot;" s in
  replace_char "'" "&#x27;" s.

Definition escape_html_for_telegram (text : string) : string :=
  if negb (str_truthy text) then "" else html_escape text.

Definition upper_ascii (a : ascii) : ascii :=
  let n := N_of_ascii a in
  if ((97 <=? n) && (n <=? 122))%N then ascii_of_N (n - 32) else a.

Fixpoint upper (s : string) : string :=
  match s with
  | String a rest => String (upper_ascii a) (upper rest)
  | EmptyString => EmptyString
  end.

(** The two variables read from [os.environ]. *)
Record environ : Type := Environ {
  TELEGRAM_BOT_TOKEN : option string;
  TELEGRAM_CHAT_ID : option string
}.

(** The JSON body of the request. *)
Record payload : Type := Payload {
  chat_id : string;
  text : string;
  disable_web_page_preview : bool;
  parse_mode : option string
}.

(** [requests.post(url, json=payload, timeout=timeout, headers=...)]. *)
Record request : Type := Request {
  url : string;
  json_payload : payload;
  timeout : Z
}.

(** What a call of [requests] raises, by the class the handlers tell
    apart, with the text of the exception. *)
Inductive raised : Type :=
| Timeout (str_e : string)
| RequestException (str_e : string)
| OtherError (str_e : string).

Record response : Type := Response {
  status_code : Z;
  response_json : raised + json        (* response.json() *)
}.

Inductive error_text : Type :=
| BotTokenNotConfigured
| ChatIdNotConfigured
| Description (description : json)       (* the 'description' of the response *)
| HttpStatus (status_code : Z)           (* f'HTTP {status_code}' *)
| RequestTimeout (timeout : Z)           (* f"Request timeout after {timeout} seconds" *)
| NetworkError (str_e : string)          (* f"Network error: {str(e)}" *)
| UnexpectedError (str_e : string).      (* f"Unexpected error: {str(e)}" *)

(** The dictionary returned: ['success'] true with the message id and the
    response, or false with the error and, after an answer of the
    service, the response. *)
Inductive send_result : Type :=
| Sent (message_id : json) (response : json) (message : string)
| NotSent (error : error_text) (response : option json) (message : string).

Inductive event : Type :=
| LogSending (chat : string)
| Post (r : request)
| LogSent
| LogApiError (error : error_text)
| LogTimeout (error : error_text)
| LogNetworkError (error : error_text)
| LogUnexpectedError (error : error_text).

(** [a or b] on optional strings. *)
Definition or_else (a b : option string) : option string :=
  match a with
  | Some s => if str_truthy s then Some s else b
  | None => b
  end.

(** [d.get(k, dflt)] on a value expected to be a dictionary; the text of
    the [AttributeError] on any other value is left to the parameter. *)
Definition get_or (attribute_error : json -> string) (d : json) (k : string)
    (dflt : json) : raised + json :=
  match d with
  | JObj m => inr (default dflt (m !! k))
  | _ => inl (OtherError (attribute_error d))
  end.

Section Sending.
Variable os_environ : environ.
Variable requests_post : request -> raised + response.
(** The text of the [AttributeError] raised by [.get] on a value that is
    not a dictionary. *)
Variable attribute_error : json -> string.

Definition send_telegram_message (message : string) (bot_token chat_id : option string)
    (parse_mode : option string) (disable_web_page_preview : bool) (timeout : Z)
    (auto_escape_html : bool) : send_result * list event :=
  let token := or_else bot_token (TELEGRAM_BOT_TOKEN os_environ) in
  let chat := or_else chat_id (TELEGRAM_CHAT_ID os_environ) in
  match token, chat with
  | None, _ => (NotSent BotTokenNotConfigured None message, [])
  | Some token, chat =>
      if negb (str_truthy token) || String.eqb token "your-bot-token-here"
      then (NotSent BotTokenNotConfigured None message, [])
      else
        match chat with
        | None => (NotSent ChatIdNotConfigured None message, [])
        | Some chat =>
            if negb (str_truthy chat) || String.eqb chat "your-chat-id-here"
            then (NotSent ChatIdNotConfigured None message, [])
            else
              let message :=
                match parse_mode with
                | Some mode =>
                    if str_truthy mode && String.eqb (upper mode) "HTML"
                       && auto_escape_html
                    then escape_html_for_telegram message
                    else message
                | None => message
                end in
              let url :=
                String.append "https://api.telegram.org/bot"
                  (String.append token "/sendMessage") in
              let payload :=
                {| chat_id := chat;
                   text := message;
                   disable_web_page_preview := disable_web_page_preview;
                   parse_mode :=
                     match parse_mode with
                     | Some mode => if str_truthy mode then Some mode else None
                     | None => None
                     end |} in
              let request := Request url payload timeout in
              (* the body of the [try], up to its [return] or exception *)
              let attempt : (raised + send_result) * list event :=
                match requests_post request with
                | inl e => (inl e, [LogSending chat; Post request])
                | inr response =>
                    match response_json response with
                    | inl e => (inl e, [LogSending chat; Post request])
                    | inr response_data =>
                        let ok :=
                          if status_code response =? 200
                          then match get_or attribute_error response_data "ok" JNull with
                               | inr v => inr (truthy v)
                               | inl e => inl e
                               end
                          else inr false in
                        match ok with
                        | inl e => (inl e, [LogSending chat; Post request])
                        | inr true =>
                            match get_or attribute_error response_data "result"
                                    (JObj ∅) with
                            | inl e => (inl e, [LogSending chat; Post request; LogSent])
                            | inr result =>
                                match get_or attribute_error result "message_id" JNull with
                                | inl e =>
                                    (inl e, [LogSending chat; Post request; LogSent])
                                | inr message_id =>
                                    (inr (Sent message_id response_data message),
                                     [LogSending chat; Post request; LogSent])
                                end
                            end
                        | inr false =>
                            match response_data with
                            | JObj m =>
                                let error_msg :=
                                  match m !! "description" with
                                  | Some description => Description description
                                  | None => HttpStatus (status_code response)
                                  end in
                                (inr (NotSent error_msg (Some response_data) message),
                                 [LogSending chat; Post request; LogApiError error_msg])
                            | _ =>
                                (inl (OtherError (attribute_error response_data)),
                                 [LogSending chat; Post request])
                            end
                        end
                    end
                end in
              match attempt with
              | (inr result, evs) => (result, evs)
              | (inl (Timeout _), evs) =>
                  let error_msg := RequestTimeout timeout in
                  (NotSent error_msg None message, evs ++ [LogTimeout error_msg])
              | (inl (RequestException str_e), evs) =>
                  let error_msg := NetworkError str_e in
                  (NotSent error_msg None message, evs ++ [LogNetworkError error_msg])
              | (inl (OtherError str_e), evs) =>
                  let error_msg := UnexpectedError str_e in
                  (NotSent error_msg None message, evs ++ [LogUnexpectedError error_msg])
              end
        end
  end.

(** The argument [labels] of [send_email_notification]: [None], a list,
    or (as [process_email] passes it) a string. *)
Inductive labels_arg : Type :=
| LabelsNone
| LabelsList (labels : list string)
| LabelsText (labels : string).

(** The envelope sign that starts the notification, as its UTF-8 bytes. *)
Definition envelope : string :=
  String (ascii_of_nat 240) (String (ascii_of_nat 159)
    (String (ascii_of_nat 147) (String (ascii_of_nat 167) EmptyString))).

Definition newline : string := String "010" EmptyString.

(** [message] of [send_email_notification]. *)
Definition notification_text (subject sender preview : string) (labels : labels_arg)
    (message_id : option string) : string :=
  let safe_sender := escape_html_for_telegram sender in
  let safe_subject := escape_html_for_telegram subject in
  let safe_preview := escape_html_for_telegram (String.substring 0 500 preview) in
  let message_lines :=
    [ String.append envelope " <b>New Email Received</b>";
      "";
      String.append "<b>From:</b> " safe_sender;
      String.append "<b>Subject:</b> " safe_subject ] in
  let message_lines :=
    match labels with
    | LabelsNone => message_lines
    | LabelsList l =>
        if negb (Nat.eqb (length l) 0) then
          message_lines
          ++ [String.append "<b>Labels:</b> "
                (escape_html_for_telegram (String.concat ", " l))]
        else message_lines
    | LabelsText s =>
        if str_truthy s then
          message_lines
          ++ [String.append "<b>Labels:</b> " (escape_html_for_telegram s)]
        else message_lines
    end in
  let message_lines :=
    match message_id with
    | Some id =>
        if str_truthy id then
          message_lines
          ++ [String.append "<b>Message ID:</b> <code>"
                (String.append (escape_html_for_telegram id) "</code>")]
        else message_lines
    | None => message_lines
    end in
  let message_lines :=
    message_lines
    ++ [ "";
         "<b>Preview:</b>";
         String.append "<i>"
           (String.append safe_preview
              (String.append
                 (if (500 <? String.length preview)%nat then "..." else "")
                 "</i>")) ] in
  String.concat newline message_lines.

Definition send_email_notification (subject sender preview : string)
    (labels : labels_arg) (message_id : option string) : send_result * list event :=
  send_telegram_message (notification_text subject sender preview labels message_id)
    None None (Some "HTML") true 10 false.

End Sending.

(** *** The vocabulary of the statements *)

(** What [html.escape] puts for one character. *)
Definition escape_char (c : ascii) : string :=
  if Ascii.eqb c "&" then "&amp;"
  else if Ascii.eqb c "<" then "&lt;"
  else if Ascii.eqb c ">" then "&gt;"
  else if Ascii.eqb c double_quote then "&quot;"
  else if Ascii.eqb c "'" then "&#x27;"
  else String c EmptyString.

(** The characters with a meaning in Telegram's HTML. *)
Definition markup (c : ascii) : bool :=
  Ascii.eqb c "<" || Ascii.eqb c ">" || Ascii.eqb c double_quote || Ascii.eqb c "'".

Fixpoint occurrences (c : ascii) (s : string) : nat :=
  match s with
  | EmptyString => 0
  | String a rest => (if Ascii.eqb a c then 1 else 0) + occurrences c rest
  end.

Definition posts (evs : list event) : list request :=
  omap (fun e => match e with Post r => Some r | _ => None end) evs.

(** The parse modes under which [send_telegram_message] escapes. *)
Definition html_mode (parse_mode : option string) : bool :=
  match parse_mode with
  | Some mode => String.eqb (upper mode) "HTML"
  | None => false
  end.

Definition is_dict (v : json) : bool :=
  match v with
  | JObj _ => true
  | _ => false
  end.

(** A bot token or chat identifier that counts as configured. *)
Definition configured (placeholder : string) (v : option string) : bool :=
  match v with
  | Some s => str_truthy s && negb (String.eqb s placeholder)
  | None => false
  end.

(** The number of tags of a notification: five lines always carry tags,
    two do when the labels, respectively the message id, are given. *)
Definition tag_brackets (labels : labels_arg) (message_id : option string) : nat :=
  10
  + (match labels with
     | LabelsNone => 0
     | LabelsList l => if Nat.eqb (length l) 0 then 0 else 2
     | LabelsText s => if str_truthy s then 2 else 0
     end)
  + (match message_id with
     | Some id => if str_truthy id then 4 else 0
     | None => 0
     end).

End Telegram.

(** ** [main.py]: the endpoints of the service *)

Module Main.

(** [str(n)] of an integer. *)
Definition str_of_int (n : Z) : string := NilZero.string_of_int (Z.to_int n).

(** [str(v)] of a value read from JSON; the text of a list and of a
    dictionary is left to the parameter. *)
Definition str (repr : json -> string) (v : json) : string :=
  match v with
  | JStr s => s
  | JNum n => str_of_int n
  | JBool true => "True"
  | JBool false => "False"
  | JNull => "None"
  | JList _ | JObj _ => repr v
  end.

(** [needle in haystack] for a [str] needle: a key of a dictionary, an
    element of a list, a substring of a string; [TypeError] on a number,
    a truth value and [None]. *)
Fixpoint is_substring (needle s : string) : bool :=
  String.prefix needle s
  || match s with
     | String _ rest => is_substring needle rest
     | EmptyString => false
     end.

Definition is_the_string (needle : string) (v : json) : bool :=
  match v with
  | JStr s => String.eqb s needle
  | _ => false
  end.

Definition contains (needle : string) (haystack : json) : exn + bool :=
  match haystack with
  | JObj m => inr (bool_decide (is_Some (m !! needle)))
  | JList l => inr (existsb (is_the_string needle) l)
  | JStr s => inr (is_substring needle s)
  | JNum _ | JBool _ | JNull => inl TypeError
  end.

(** The results of the three methods of the watch manager, as the
    dictionaries the endpoints receive. *)
Inductive watch_result : Type :=
| Renewed (r : WatchManager.renew_result)
| Stopped (r : WatchManagerMore.stop_result)
| Status (r : WatchManagerMore.status_result).

(** [result.get('status') == 'success'] *)
Definition status_is_success (r : watch_result) : bool :=
  match r with
  | Renewed (WatchManager.StatusSuccess _ _) => true
  | Stopped WatchManagerMore.StopSuccess => true
  | Status (WatchManagerMore.ProfileSuccess _) => true
  | _ => false
  end.

(** The [detail] of an [HTTPException]. *)
Inductive detail : Type :=
| DetailText (s : string)
| DetailResult (result : watch_result)           (* detail=result *)
| DetailInternalError (details : string).        (* {'error': 'Internal server error',
                                                     'details': str(e)} *)

(** What is raised in [main.py]: the exception of the web framework,
    two classes that the handlers of the file name, and the classes of
    the other modules. *)
Inductive raised : Type :=
| HTTPException (status_code : Z) (detail : detail)
| UnicodeDecodeError                             (* a subclass of ValueError *)
| FileNotFoundError
| Raised (e : exn).

(** [except (UnicodeDecodeError, ValueError)] *)
Definition is_ValueError (e : raised) : bool :=
  match e with
  | UnicodeDecodeError => true
  | Raised ValueError | Raised JSONDecodeError | Raised BinasciiError => true
  | _ => false
  end.

(** The dictionaries [email_notify] returns. *)
Inductive notify_response : Type :=
| WatchNotification (historyId emailAddress : json)   (* status 'success' *)
| HistoryNotification (historyId : json)              (* status 'success' *)
| ProfileNotification (emailAddress : json)           (* status 'success' *)
| UnknownJson (data : json)                           (* status 'ignored' *)
| RawMessage (messageId : json) (dataLength : nat).   (* status 'received' *)

Inductive log_record : Type :=
| StartingBackgroundProcessing (history_id : string)
| ProcessingForEmailAddress (email_address : json)
| CompletedBackgroundProcessing (history_id : string)
| ErrorInBackgroundProcessing (history_id : string) (e : raised)
| InitializingCredentials
| AlreadyInitialized
| LoadedFromSecretManager
| CouldNotLoadFromSecretManager (e : raised)
| LoadedFromEnvironmentVariable
| LoadedFromLocalFile
| NoCredentialsFound
| InitializedHandlers
| NoJsonPayloadReceived
| ReceivedEnvelope (envelope : json)
| NoMessageInPayload
| EmptyMessageData
| DecodingMessageData
| ParsedNotificationData
| ReceivedWatchNotification (email_address history_id : json)
| QueuingBackgroundTask
| ReceivedHistoryNotification (history_id : json)
| ReceivedProfileNotification (email_address : json)
| UnknownJsonFormat (notification_data : json)
| MessageDataIsNotJson (length : nat)
| First200Characters (s : string)
| ReceivedRawMessageContent
| ErrorDecodingMessageData (e : raised)
| ErrorProcessingNotification (e : raised)
| RenewingWatchSubscription
| ErrorRenewingWatch (e : raised)
| ErrorGettingWatchStatus (e : raised)
| StoppingWatchSubscription
| WatchSubscriptionStopped
| FailedToStopWatch (result : watch_result)
| ErrorStoppingWatch (e : raised).

(** What a call does that can be observed: its log records, the events
    of the handler and of the manager, and the tasks handed to
    [background_tasks.add_task]. *)
Inductive event : Type :=
| Log (l : GmailHandler.level) (r : log_record)
| OfHandler (e : GmailHandler.event)
| OfManager (e : WatchManagerMore.event)
| AddTask (history_id : string) (email_address : json) (notification_type : string).

(** The module's two globals, and the state file the handler works on.
    Of a handler that exists only [service] is state of its own. *)
Record globals : Type := Globals {
  state_file : option GmailHandler.contents;
  gmail_handler : option bool;
  watch_manager : option WatchManager.manager
}.

(** What the service reads and calls.  The constructors of the two
    classes return or raise; their log records are not among the
    events. *)
Record environment : Type := Environment {
  GOOGLE_CLOUD_PROJECT : option string;
  SecretManagerServiceClient : option raised;
  (** [client.access_secret_version(...)], the decoding of its payload
      and [json.loads] *)
  access_secret_version : string -> raised + json;
  GOOGLE_SERVICE_ACCOUNT_JSON : option string;
  (** [base64.b64decode(s).decode('utf-8')] *)
  b64decode_utf8 : string -> raised + string;
  (** [json.loads(s)]; [None] is [JSONDecodeError] *)
  json_loads : string -> option json;
  (** [open('service-account.json')] and [json.load] *)
  local_file : raised + json;
  GmailHandler_init : json -> option raised;
  WatchManager_init : json -> option raised;
  handler_env : GmailHandler.collaborators;
  manager_env : WatchManager.collaborators;
  users_getProfile : exn + WatchManagerMore.profile;
  (** [str(e)] and the text of a list or dictionary *)
  str_e : raised -> string;
  repr : json -> string
}.

(** *** Computations of the module: the globals, what is raised, the events *)

Definition M (A : Type) : Type := globals -> (raised + A) * globals * list event.

Definition ret {A} (a : A) : M A := fun g => (inr a, g, []).

Definition raise {A} (e : raised) : M A := fun g => (inl e, g, []).

Definition bind {A B} (c : M A) (f : A -> M B) : M B :=
  fun g =>
    match c g with
    | (inl e, g1, l1) => (inl e, g1, l1)
    | (inr a, g1, l1) =>
        match f a g1 with
        | (r, g2, l2) => (r, g2, l1 ++ l2)
        end
    end.

(** [try: c  except Exception as e: h e] *)
Definition try_except {A} (c : M A) (h : raised -> M A) : M A :=
  fun g =>
    match c g with
    | (inl e, g1, l1) =>
        match h e g1 with
        | (r, g2, l2) => (r, g2, l1 ++ l2)
        end
    | done => done
    end.

Definition log (l : GmailHandler.level) (r : log_record) : M unit :=
  fun g => (inr tt, g, [Log l r]).

Definition emit (e : event) : M unit := fun g => (inr tt, g, [e]).

Definition get_globals : M globals := fun g => (inr g, g, []).

Definition put_globals (g' : globals) : M unit := fun _ => (inr tt, g', []).

Definition lift {A} (r : raised + A) : M A :=
  match r with inl e => raise e | inr a => ret a end.

(** A call that returns nothing, or raises. *)
Definition call (r : option raised) : M unit :=
  match r with Some e => raise e | None => ret tt end.

(** A call of another module: what it raises is raised here. *)
Definition lift_exn {A} (r : exn + A) : M A :=
  match r with inl e => raise (Raised e) | inr a => ret a end.

Declare Scope main_scope.
Delimit Scope main_scope with main.
Notation "x <- c ;; k" := (bind c (fun x => k))
  (at level 100, c at next level, right associativity) : main_scope.
Notation "c ;; k" := (bind c (fun _ => k))
  (at level 100, right associativity) : main_scope.
Local Open Scope main_scope.

(** [gmail_handler.m(...)]: the method runs on the global handler and
    the state file; on [None] the attribute access raises. *)
Definition on_gmail_handler {A} (m : @Py.M GmailHandler.handler GmailHandler.event A) : M A :=
  fun g =>
    match gmail_handler g with
    | None => (inl (Raised AttributeError), g, [])
    | Some service =>
        match m (GmailHandler.Handler (state_file g) service) with
        | (r, h, evs) =>
            (match r with inl e => inl (Raised e) | inr a => inr a end,
             {| state_file := GmailHandler.state_file h;
                gmail_handler := Some (GmailHandler.service h);
                watch_manager := watch_manager g |},
             map OfHandler evs)
        end
    end.

(** [watch_manager.m(...)] *)
Definition on_watch_manager {A E} (inj : E -> WatchManagerMore.event)
    (m : @Py.M WatchManager.manager E A) : M A :=
  fun g =>
    match watch_manager g with
    | None => (inl (Raised AttributeError), g, [])
    | Some manager =>
        match m manager with
        | (r, manager', evs) =>
            (match r with inl e => inl (Raised e) | inr a => inr a end,
             {| state_file := state_file g;
                gmail_handler := gmail_handler g;
                watch_manager := Some manager' |},
             map (fun e => OfManager (inj e)) evs)
        end
    end.

Section Endpoints.
Variable env : environment.

Import GmailHandler(INFO, WARNING, ERROR).

(** [json.loads(s)] *)
Definition loads (s : string) : M json :=
  match json_loads env s with
  | Some v => ret v
  | None => raise (Raised JSONDecodeError)
  end.

Definition get_service_account_info : M unit :=
  log INFO InitializingCredentials ;;
  g <- get_globals ;;
  match gmail_handler g with
  | Some _ => log INFO AlreadyInitialized
  | None =>
      service_account_info <-
        try_except
          (match GOOGLE_CLOUD_PROJECT env with
           | Some project_id =>
               if str_truthy project_id then
                 call (SecretManagerServiceClient env) ;;
                 try_except
                   (service_account_info <- lift (access_secret_version env project_id) ;;
                    log INFO LoadedFromSecretManager ;;
                    ret service_account_info)
                   (fun e => log INFO (CouldNotLoadFromSecretManager e) ;; raise e)
               else raise (Raised (OtherException "GOOGLE_CLOUD_PROJECT not set"))
           | None => raise (Raised (OtherException "GOOGLE_CLOUD_PROJECT not set"))
           end)
          (fun _ =>
             let from_local_file :=
               try_except
                 (service_account_info <- lift (local_file env) ;;
                  log INFO LoadedFromLocalFile ;;
                  ret service_account_info)
                 (fun e =>
                    match e with
                    | FileNotFoundError =>
                        log ERROR NoCredentialsFound ;;
                        raise (Raised (OtherException
                                         "Service account credentials not found"))
                    | _ => raise e
                    end) in
             match GOOGLE_SERVICE_ACCOUNT_JSON env with
             | Some service_account_json =>
                 if str_truthy service_account_json then
                   service_account_json <- lift (b64decode_utf8 env service_account_json) ;;
                   service_account_info <- loads service_account_json ;;
                   service_account_info <-
                     (match service_account_info with
                      | JStr s => loads s
                      | _ => ret service_account_info
                      end) ;;
                   log INFO LoadedFromEnvironmentVariable ;;
                   ret service_account_info
                 else from_local_file
             | None => from_local_file
             end) ;;
      call (GmailHandler_init env service_account_info) ;;
      g <- get_globals ;;
      put_globals {| state_file := state_file g;
                     gmail_handler := Some false;
                     watch_manager := watch_manager g |} ;;
      call (WatchManager_init env service_account_info) ;;
      g <- get_globals ;;
      put_globals {| state_file := state_file g;
                     gmail_handler := gmail_handler g;
                     watch_manager := Some (WatchManager.Manager false) |} ;;
      log INFO InitializedHandlers
  end.

(** [history_id] is a [str], as both callers pass it, so the
    [str(history_id)] of the call of [process_history] is [history_id].
    [email_address] is [None] or a value of the notification. *)
Definition process_gmail_history_background (history_id : string) (email_address : json)
    (notification_type : string) : M unit :=
  try_except
    (log INFO (StartingBackgroundProcessing history_id) ;;
     (if truthy email_address
      then log INFO (ProcessingForEmailAddress email_address)
      else ret tt) ;;
     get_service_account_info ;;
     on_gmail_handler (GmailHandler.process_history (handler_env env) history_id) ;;
     log INFO (CompletedBackgroundProcessing history_id))
    (fun e => log ERROR (ErrorInBackgroundProcessing history_id e)).

(** [request_json] is what [await request.json()] gives. *)
Definition email_notify (request_json : raised + json) : M notify_response :=
  try_except
    (get_service_account_info ;;
     envelope <- lift request_json ;;
     (if negb (truthy envelope) then
        log WARNING NoJsonPayloadReceived ;;
        raise (HTTPException 400 (DetailText "No JSON payload"))
      else ret tt) ;;
     log INFO (ReceivedEnvelope envelope) ;;
     pubsub_message <- lift_exn (dict_get envelope "message") ;;
     (if negb (truthy pubsub_message) then
        log WARNING NoMessageInPayload ;;
        raise (HTTPException 400 (DetailText "No message in payload"))
      else ret tt) ;;
     message_data <-
       lift_exn (match pubsub_message with
                 | JObj m => inr (default (JStr "") (m !! "data"))
                 | _ => inl AttributeError
                 end) ;;
     messageId <- lift_exn (dict_get pubsub_message "messageId") ;;
     message_id <-
       (if truthy messageId then ret messageId
        else lift_exn (dict_get pubsub_message "message_id")) ;;
     (if negb (truthy message_data) then
        log WARNING EmptyMessageData ;;
        raise (HTTPException 400 (DetailText "Empty message data"))
      else ret tt) ;;
     try_except
       (log INFO DecodingMessageData ;;
        decoded_data <-
          (match message_data with
           | JStr s => lift (b64decode_utf8 env s)
           | _ => raise (Raised TypeError)
           end) ;;
        try_except
          (notification_data <- loads decoded_data ;;
           log INFO ParsedNotificationData ;;
           has_history_id <- lift_exn (contains "historyId" notification_data) ;;
           if has_history_id then
             history_id <- lift_exn (dict_get notification_data "historyId") ;;
             email_address <- lift_exn (dict_get notification_data "emailAddress") ;;
             if truthy email_address then
               log INFO (ReceivedWatchNotification email_address history_id) ;;
               log INFO QueuingBackgroundTask ;;
               emit (AddTask (str (repr env) history_id) email_address
                       "watch_notification") ;;
               ret (WatchNotification history_id email_address)
             else
               log INFO (ReceivedHistoryNotification history_id) ;;
               log INFO QueuingBackgroundTask ;;
               emit (AddTask (str (repr env) history_id) JNull "history") ;;
               ret (HistoryNotification history_id)
           else
             has_email_address <- lift_exn (contains "emailAddress" notification_data) ;;
             if has_email_address then
               email_address <- lift_exn (dict_get notification_data "emailAddress") ;;
               log INFO (ReceivedProfileNotification email_address) ;;
               ret (ProfileNotification email_address)
             else
               log WARNING (UnknownJsonFormat notification_data) ;;
               ret (UnknownJson notification_data))
          (fun e =>
             match e with
             | Raised JSONDecodeError =>
                 log INFO (MessageDataIsNotJson (String.length decoded_data)) ;;
                 log INFO (First200Characters (String.substring 0 200 decoded_data)) ;;
                 log WARNING ReceivedRawMessageContent ;;
                 ret (RawMessage message_id (String.length decoded_data))
             | _ => raise e
             end))
       (fun e =>
          if is_ValueError e then
            log ERROR (ErrorDecodingMessageData e) ;;
            raise (HTTPException 400 (DetailText "Invalid base64 message data"))
          else raise e))
    (fun e =>
       log ERROR (ErrorProcessingNotification e) ;;
       raise (HTTPException 500 (DetailText "Internal server error"))).

(** The body shared by the three watch endpoints after the
    initialisation: the result is returned when its status is
    ['success'] and raised as the detail of an [HTTPException]
    otherwise. *)
Definition renew_watch : M watch_result :=
  try_except
    (get_service_account_info ;;
     log INFO RenewingWatchSubscription ;;
     result <-
       on_watch_manager WatchManagerMore.Shared
         (WatchManager.renew_watch (manager_env env)) ;;
     let result := Renewed result in
     if status_is_success result then ret result
     else raise (HTTPException 500 (DetailResult result)))
    (fun e =>
       log ERROR (ErrorRenewingWatch e) ;;
       raise (HTTPException 500 (DetailInternalError (str_e env e)))).

Definition watch_status : M watch_result :=
  try_except
    (get_service_account_info ;;
     result <-
       on_watch_manager id
         (WatchManagerMore.get_watch_status (users_getProfile env)) ;;
     let result := Status result in
     if status_is_success result then ret result
     else raise (HTTPException 500 (DetailResult result)))
    (fun e =>
       log ERROR (ErrorGettingWatchStatus e) ;;
       raise (HTTPException 500 (DetailInternalError (str_e env e)))).

Definition stop_watch : M watch_result :=
  try_except
    (get_service_account_info ;;
     log INFO StoppingWatchSubscription ;;
     result <-
       on_watch_manager id (WatchManagerMore.stop_watch (manager_env env)) ;;
     let result := Stopped result in
     if status_is_success result then
       log INFO WatchSubscriptionStopped ;;
       ret result
     else
       log ERROR (FailedToStopWatch result) ;;
       raise (HTTPException 500 (DetailResult result)))
    (fun e =>
       log ERROR (ErrorStoppingWatch e) ;;
       raise (HTTPException 500 (DetailInternalError (str_e env e)))).

End Endpoints.

(** *** The vocabulary of the statements *)

Definition result {A} (r : (raised + A) * globals * list event) : raised + A :=
  fst (fst r).
Definition final {A} (r : (raised + A) * globals * list event) : globals :=
  snd (fst r).
Definition events {A} (r : (raised + A) * globals * list event) : list event :=
  snd r.

Definition is_log (e : event) : bool :=
  match e with Log _ _ => true | _ => false end.

(** The tasks queued by a call, in order. *)
Definition tasks (evs : list event) : list (string * json * string) :=
  omap (fun e => match e with
                 | AddTask history_id email_address notification_type =>
                     Some (history_id, email_address, notification_type)
                 | _ => None
                 end) evs.

(** The events of the handler among those of a call. *)
Definition handler_events (evs : list event) : list GmailHandler.event :=
  omap (fun e => match e with OfHandler e => Some e | _ => None end) evs.

(** The events of the manager among those of a call. *)
Definition manager_events (evs : list event) : list WatchManagerMore.event :=
  omap (fun e => match e with OfManager e => Some e | _ => None end) evs.

(** The notification carried by a request, when the request holds one
    with a history identifier: the [historyId] and the [emailAddress]
    of the JSON object that the [data] of the [message] decodes to. *)
Definition history_notification (env : environment) (request_json : raised + json)
    : option (json * json) :=
  match request_json with
  | inr (JObj envelope) =>
      match envelope !! "message" with
      | Some (JObj message) =>
          match message !! "data" with
          | Some (JStr data) =>
              match b64decode_utf8 env data with
              | inr decoded_data =>
                  match json_loads env decoded_data with
                  | Some (JObj notification_data) =>
                      match notification_data !! "historyId" with
                      | Some history_id =>
                          if str_truthy data then
                            Some (history_id,
                                  default JNull (notification_data !! "emailAddress"))
                          else None
                      | None => None
                      end
                  | _ => None
                  end
              | inl _ => None
              end
          | _ => None
          end
      | _ => None
      end
  | _ => None
  end.

End Main.

(** ** More sample data *)

Module MoreSamples.

(** A watch request refused with an HTTP error whose details are a text. *)
Definition quota_exceeded : exn := HttpError (DetailsText "quota exceeded").

Definition gmail_refusing : WatchManager.collaborators :=
  {| WatchManager.users_stop := inr tt;
     WatchManager.users_watch := fun _ => inl quota_exceeded;
     WatchManager.get_project_id := "proj";
     WatchManager.get_topic_name := "gmail-incoming";
     WatchManager.get_gmail_watch_label_ids := ["Label_1"];
     WatchManager.get_gmail_watch_labels := ["INBOX"] |}.

(** A configured bot, and two answers of the service with status 200 and
    a true ['ok']: one whose ['result'] is the message, one whose
    ['result'] is a text. *)
Definition bot : Telegram.environ :=
  {| Telegram.TELEGRAM_BOT_TOKEN := Some "123:abc";
     Telegram.TELEGRAM_CHAT_ID := Some "42" |}.

Definition accepted_body : gmap string json :=
  <[ "ok" := JBool true ]> {[ "result" := JObj {[ "message_id" := JNum 7 ]} ]}.

Definition odd_body : gmap string json :=
  <[ "ok" := JBool true ]> {[ "result" := JStr "queued" ]}.

Definition answering (body : gmap string json)
    : Telegram.request -> Telegram.raised + Telegram.response :=
  fun _ => inr (Telegram.Response 200 (inr (JObj body))).

Definition attribute_error : json -> string :=
  fun _ => "object has no attribute 'get'".

(** The service with credentials in a local file only; the constructor
    of the watch manager returns or raises. *)
Definition service (WatchManager_init : option Main.raised) : Main.environment :=
  {| Main.GOOGLE_CLOUD_PROJECT := None;
     Main.SecretManagerServiceClient := None;
     Main.access_secret_version := fun _ => inl (Main.Raised (OtherException "PermissionDenied"));
     Main.GOOGLE_SERVICE_ACCOUNT_JSON := None;
     Main.b64decode_utf8 := fun _ => inl (Main.Raised BinasciiError);
     Main.json_loads := fun _ => None;
     Main.local_file := inr (JObj {[ "type" := JStr "service_account" ]});
     Main.GmailHandler_init := fun _ => None;
     Main.WatchManager_init := fun _ => WatchManager_init;
     Main.handler_env := Samples.mailbox (inr Samples.one_added) [];
     Main.manager_env := Samples.gmail (inr tt);
     Main.users_getProfile := inl (OtherException "ConnectionError");
     Main.str_e := fun _ => "error";
     Main.repr := fun _ => "[...]" |}.

(** The globals when the module is loaded. *)
Definition loaded : Main.globals :=
  {| Main.state_file := None;
     Main.gmail_handler := None;
     Main.watch_manager := None |}.

End MoreSamples.

(** * Properties *)

(** ** The state store *)

Section StateStore.
Import GmailHandler.

Lemma get_last_processed_history_id_run (s : handler) :
  get_last_processed_history_id s
  = (inr (stored_cursor (state_file s)), s, reading_log (state_file s)).
Proof.
  destruct s as [[[|[]]|] svc]; reflexivity.
Qed.

Lemma save_last_processed_history_id_run (history_id : string) (s : handler) :
  save_last_processed_history_id history_id s
  = (inr tt,
     {| state_file := written history_id (state_file s); service := service s |},
     saving_log history_id (state_file s)).
Proof.
  destruct s as [[[|[]]|] svc]; reflexivity.
Qed.

Lemma stored_cursor_written (history_id : string) (f : option contents) :
  usable f = true -> stored_cursor (written history_id f) = JStr history_id.
Proof.
  destruct f as [[|[]]|]; try discriminate; intros _; simpl.
  - by rewrite lookup_insert_eq.
  - by rewrite lookup_singleton_eq.
Qed.

Lemma written_unusable (history_id : string) (f : option contents) :
  usable f = false -> written history_id f = f.
Proof. destruct f as [[|[]]|]; try discriminate; reflexivity. Qed.

(** C10.  Saving a cursor leaves every other key of the state record as
    it was: whatever the state file, a key other than [last_history_id]
    is bound after the save to what it was bound to before; on a state
    file that holds a JSON object the new file is that object with
    [last_history_id] set to the cursor; the method never raises and
    does not touch the client. *)
Theorem save_preserves_other_keys (history_id : string) (s : handler) :
  let r := save_last_processed_history_id history_id s in
  result r = inr tt
  /\ service (final r) = service s
  /\ (forall k, k <> key -> entry (state_file (final r)) k = entry (state_file s) k)
  /\ (forall m, state_file s = Some (Doc (JObj m)) ->
      state_file (final r) = Some (Doc (JObj (<[ key := JStr history_id ]> m)))).
Proof.
  rewrite save_last_processed_history_id_run. cbn [result final fst snd state_file service].
  repeat split.
  - intros k Hk. destruct (state_file s) as [[|[]]|]; simpl; try reflexivity.
    + by rewrite lookup_insert_ne.
    + by rewrite lookup_singleton_ne.
  - intros m ->. reflexivity.
Qed.

End StateStore.

(** ** Running a computation step by step *)

Section Steps.
Context {S E : Type}.

Lemma bind_inr {A B} (c : Py.M (S := S) (E := E) A) (f : A -> Py.M B)
    (s s1 s2 : S) (a : A) (l1 l2 : list E) (r : exn + B) :
  c s = (inr a, s1, l1) -> f a s1 = (r, s2, l2) ->
  bind c f s = (r, s2, l1 ++ l2).
Proof. unfold bind. intros -> ->. reflexivity. Qed.

Lemma bind_inl {A B} (c : Py.M (S := S) (E := E) A) (f : A -> Py.M B)
    (s s1 : S) (e : exn) (l1 : list E) :
  c s = (inl e, s1, l1) -> bind c f s = (inl e, s1, l1).
Proof. unfold bind. intros ->. reflexivity. Qed.

Lemma try_except_inr {A} (c : Py.M (S := S) (E := E) A) (h : exn -> Py.M A)
    (s s1 : S) (a : A) (l1 : list E) :
  c s = (inr a, s1, l1) -> try_except c h s = (inr a, s1, l1).
Proof. unfold try_except. intros ->. reflexivity. Qed.

Lemma try_except_inl {A} (c : Py.M (S := S) (E := E) A) (h : exn -> Py.M A)
    (s s1 s2 : S) (e : exn) (l1 l2 : list E) (r : exn + A) :
  c s = (inl e, s1, l1) -> h e s1 = (r, s2, l2) ->
  try_except c h s = (r, s2, l1 ++ l2).
Proof. unfold try_except. intros -> ->. reflexivity. Qed.

End Steps.

Ltac step H := eapply bind_inr; [exact H | cbv beta].
Ltac step_emit := eapply bind_inr; [reflexivity | cbv beta].
Ltac step_ret := eapply bind_inr; [reflexivity | cbv beta].
Ltac flatten := repeat (progress (rewrite <- ?app_assoc; cbn [app])).
Ltac tidy := repeat (progress (cbn [app]; rewrite ?app_nil_r)).

(** ** The reconciliation engine *)

Section Reconciliation.
Import GmailHandler.
Variable env : collaborators.

Lemma deliveries_app (l1 l2 : list event) :
  deliveries (l1 ++ l2) = deliveries l1 ++ deliveries l2.
Proof. apply omap_app. Qed.

Lemma history_fetches_app (l1 l2 : list event) :
  history_fetches (l1 ++ l2) = history_fetches l1 ++ history_fetches l2.
Proof. apply omap_app. Qed.

Lemma message_fetches_app (l1 l2 : list event) :
  message_fetches (l1 ++ l2) = message_fetches l1 ++ message_fetches l2.
Proof. apply omap_app. Qed.

Lemma deliveries_cons (e : event) (l : list event) :
  deliveries (e :: l)
  = match e with ProcessEmail m => m :: deliveries l | _ => deliveries l end.
Proof. destruct e; reflexivity. Qed.

Lemma history_fetches_cons (e : event) (l : list event) :
  history_fetches (e :: l)
  = match e with HistoryList v => v :: history_fetches l | _ => history_fetches l end.
Proof. destruct e; reflexivity. Qed.

Lemma message_fetches_cons (e : event) (l : list event) :
  message_fetches (e :: l)
  = match e with MessagesGet v => v :: message_fetches l | _ => message_fetches l end.
Proof. destruct e; reflexivity. Qed.

Lemma deliveries_nil : deliveries [] = [].
Proof. reflexivity. Qed.

Lemma history_fetches_nil : history_fetches [] = [].
Proof. reflexivity. Qed.

Lemma message_fetches_nil : message_fetches [] = [].
Proof. reflexivity. Qed.

Lemma reading_log_quiet (f : option contents) :
  deliveries (reading_log f) = [] /\ history_fetches (reading_log f) = []
  /\ message_fetches (reading_log f) = [].
Proof. destruct f as [[|[]]|]; repeat split; reflexivity. Qed.

Lemma saving_log_quiet (h : string) (f : option contents) :
  deliveries (saving_log h f) = [] /\ history_fetches (saving_log h f) = []
  /\ message_fetches (saving_log h f) = [].
Proof. destruct f as [[|[]]|]; repeat split; reflexivity. Qed.

Ltac readings :=
  repeat (rewrite ?deliveries_app, ?history_fetches_app, ?message_fetches_app,
            ?deliveries_cons, ?history_fetches_cons, ?message_fetches_cons,
            ?deliveries_nil, ?history_fetches_nil, ?message_fetches_nil;
          cbn beta iota).

(** [process_message] never raises, leaves the handler as it is, and calls
    the consumer exactly when the message passes the label filter. *)
Lemma process_message_run (m : message) (s : handler) :
  exists evs,
    process_message env m s = (inr tt, s, evs)
    /\ deliveries evs = (if passes_label_filter env m then [m] else [])
    /\ history_fetches evs = [] /\ message_fetches evs = [].
Proof.
  unfold process_message, passes_label_filter, try_except, bind, log, emit.
  destruct (Nat.eqb (length (get_gmail_watch_label_ids env)) 0);
    destruct (existsb _ (get_gmail_watch_label_ids env)); simpl;
    try destruct (process_email env m) as [e|]; simpl;
    eexists; repeat split.
Qed.

(** [fetch_message] never raises and leaves the state file as it is. *)
Lemma fetch_message_run (message_id : string) (f : option contents) (svc : bool) :
  exists evs,
    fetch_message env message_id (Handler f svc)
    = (inr (fetched env message_id), Handler f true, evs)
    /\ deliveries evs = [] /\ history_fetches evs = []
    /\ message_fetches evs = [message_id].
Proof.
  unfold fetch_message, fetched, try_except, bind, get_service, lift. simpl.
  destruct svc; simpl.
  all: destruct (messages_get env message_id) as [e|m]; simpl.
  all: try (destruct (is_HttpError e); simpl; eexists; repeat split).
  all: destruct (str_truthy _); simpl; eexists; repeat split.
Qed.

Lemma process_added_run (a : message_added) (n : nat) (f : option contents) (svc : bool) :
  exists evs,
    process_added env a n (Handler f svc)
    = (inr (n + length (omap (fetched env) [added_id a]))%nat, Handler f true, evs)
    /\ deliveries evs
       = List.filter (passes_label_filter env) (omap (fetched env) [added_id a])
    /\ history_fetches evs = []
    /\ message_fetches evs = [added_id a].
Proof.
  unfold process_added.
  destruct (fetch_message_run (added_id a) f svc) as (e1 & E1 & D1 & H1 & F1).
  unfold bind at 1. unfold log, emit. unfold bind at 1. rewrite E1.
  simpl omap. destruct (fetched env (added_id a)) as [m|]; simpl.
  - destruct (process_message_run m (Handler f true)) as (e2 & E2 & D2 & H2 & F2).
    unfold bind at 1. rewrite E2. simpl.
    eexists; split; [f_equal; f_equal; f_equal; lia|].
    readings. rewrite D1, D2, H1, H2, F1, F2. simpl. rewrite !app_nil_r.
    destruct (passes_label_filter env m); repeat split.
  - eexists; split; [f_equal; f_equal; f_equal; lia|].
    readings. rewrite D1, H1, F1. repeat split.
Qed.

Lemma get_service_run (f : option contents) (svc : bool) :
  get_service (Handler f svc) = (inr tt, Handler f true, []).
Proof. destruct svc; reflexivity. Qed.

Lemma added_loop_run (l : list message_added) (n : nat) (f : option contents) :
  exists evs,
    for_each l n (process_added env) (Handler f true)
    = (inr (n + length (omap (fetched env) (map added_id l)))%nat, Handler f true, evs)
    /\ deliveries evs
       = List.filter (passes_label_filter env) (omap (fetched env) (map added_id l))
    /\ history_fetches evs = []
    /\ message_fetches evs = map added_id l.
Proof.
  revert n. induction l as [|a l IH]; intros n.
  - exists []. simpl. rewrite Nat.add_0_r. repeat split.
  - destruct (process_added_run a n f true) as (e1 & E1 & D1 & H1 & F1).
    destruct (IH (n + length (omap (fetched env) [added_id a]))%nat)
      as (e2 & E2 & D2 & H2 & F2).
    exists (e1 ++ e2). cbn [for_each]. unfold bind at 1. rewrite E1, E2.
    change (map added_id (a :: l)) with ([added_id a] ++ map added_id l).
    rewrite omap_app, List.filter_app, length_app.
    readings. rewrite D1, D2, H1, H2, F1, F2.
    split; [f_equal; f_equal; f_equal; lia | repeat split].
Qed.

Lemma records_loop_run (rs : list history_record) (n : nat) (f : option contents) :
  exists evs,
    for_each rs n
      (fun record messages_processed =>
         for_each (default [] (messagesAdded record)) messages_processed
           (process_added env))
      (Handler f true)
    = (inr (n + length (omap (fetched env) (added_ids rs)))%nat, Handler f true, evs)
    /\ deliveries evs
       = List.filter (passes_label_filter env) (omap (fetched env) (added_ids rs))
    /\ history_fetches evs = []
    /\ message_fetches evs = added_ids rs.
Proof.
  revert n. induction rs as [|r rs IH]; intros n.
  - exists []. simpl. rewrite Nat.add_0_r. repeat split.
  - destruct (added_loop_run (default [] (messagesAdded r)) n f)
      as (e1 & E1 & D1 & H1 & F1).
    destruct (IH (n + length (omap (fetched env)
                                 (map added_id (default [] (messagesAdded r)))))%nat)
      as (e2 & E2 & D2 & H2 & F2).
    exists (e1 ++ e2). cbn [for_each]. unfold bind at 1. rewrite E1, E2.
    unfold added_ids in *. cbn [flat_map].
    rewrite omap_app, List.filter_app, length_app.
    readings. rewrite D1, D2, H1, H2, F1, F2.
    split; [f_equal; f_equal; f_equal; lia | repeat split].
Qed.

(** A call whose incoming cursor is not above the stored one. *)
Lemma process_history_skips (history_id : string) (f : option contents) (svc : bool) :
  not_newer history_id (stored_cursor f) = true ->
  exists incoming_id last_id,
    int (JStr history_id) = inr incoming_id
    /\ last_id_of (stored_cursor f) = inr last_id
    /\ incoming_id <= last_id
    /\ process_history env history_id (Handler f svc)
       = (inr tt, Handler f true,
          prologue history_id f ++ [Log INFO (NotNewerSkipping incoming_id last_id)]).
Proof.
  unfold not_newer. intros H.
  destruct (int (JStr history_id)) as [|n] eqn:Hn; [discriminate|].
  destruct (last_id_of (stored_cursor f)) as [|m] eqn:Hm; [discriminate|].
  exists n, m. repeat split; [lia|].
  unfold process_history.
  unfold try_except at 1. unfold bind at 1.
  rewrite get_service_run.
  unfold bind at 1. rewrite get_last_processed_history_id_run.
  cbn [state_file]. unfold log, emit, bind, try_except, lift, ret. rewrite Hn, Hm.
  simpl. rewrite H. simpl. unfold prologue. flatten. reflexivity.
Qed.

Lemma top_level_handler_run (e : exn) (s : handler) :
  (if is_HttpError e then log ERROR (ApiErrorProcessingHistory e)
   else log ERROR (UnexpectedErrorProcessingHistory e)) s
  = (inr tt, s, [top_level_error e]).
Proof. unfold top_level_error. destruct (is_HttpError e); reflexivity. Qed.

Lemma int_raises (v : json) (e : exn) :
  int v = inl e -> e = ValueError \/ e = TypeError.
Proof.
  destruct v; simpl; try (intros [= <-]; auto; fail); try discriminate.
  destruct (int_of_str s); [discriminate | intros [= <-]; auto].
Qed.

Lemma last_id_of_raises (v : json) (e : exn) :
  last_id_of v = inl e -> e = ValueError \/ e = TypeError.
Proof.
  unfold last_id_of. destruct (truthy v); [apply int_raises | discriminate].
Qed.

(** A call that is not stopped by the freshness check: it issues the
    history fetch; when the fetch raises, the top-level handler logs and
    the state file is as before; when it returns, every added message is
    fetched and the cursor is saved. *)
Lemma process_history_proceeds (history_id : string) (f : option contents) (svc : bool) :
  not_newer history_id (stored_cursor f) = false ->
  match history_list env (start_of history_id (stored_cursor f)) with
  | inl e =>
      process_history env history_id (Handler f svc)
      = (inr tt, Handler f true, opening history_id f ++ [top_level_error e])
  | inr history_response =>
      exists body,
        process_history env history_id (Handler f svc)
        = (inr tt, Handler (written history_id f) true,
           opening history_id f ++ body ++ saving_log history_id f)
        /\ deliveries body
           = List.filter (passes_label_filter env)
               (omap (fetched env) (added_ids (default [] (history history_response))))
        /\ history_fetches body = []
        /\ message_fetches body = added_ids (default [] (history history_response))
  end.
Proof.
  intros H.
  assert (Hinner :
    try_except
      (incoming_id <- lift (int (JStr history_id)) ;;
       last_id <- lift (last_id_of (stored_cursor f)) ;;
       if incoming_id <=? last_id then
         log INFO (NotNewerSkipping incoming_id last_id) ;; ret false
       else ret true)
      (fun e =>
         match e with
         | ValueError | JSONDecodeError | TypeError =>
             log WARNING CouldNotCompare ;; ret true
         | _ => raise e
         end) (Handler f true)
    = (inr true, Handler f true,
       if parse_fails history_id (stored_cursor f)
       then [Log WARNING CouldNotCompare] else [])).
  { unfold not_newer, parse_fails in *.
    unfold try_except, bind, lift, log, emit, ret, raise.
    destruct (int (JStr history_id)) as [e|n] eqn:Hn.
    - destruct (int_raises _ _ Hn) as [-> | ->]; reflexivity.
    - destruct (last_id_of (stored_cursor f)) as [e|m] eqn:Hm.
      + destruct (last_id_of_raises _ _ Hm) as [-> | ->]; reflexivity.
      + rewrite H. reflexivity. }
  pose proof (get_service_run f svc) as Hsvc.
  pose proof (get_last_processed_history_id_run (Handler f true)) as Hlast.
  cbn [state_file] in Hlast.
  destruct (history_list env (start_of history_id (stored_cursor f)))
    as [e|history_response] eqn:HL.
  - unfold process_history. etransitivity.
    { eapply try_except_inl.
      - step Hsvc. step Hlast. step_emit. step_emit. step Hinner. cbn [negb].
        step_emit. step_emit. eapply bind_inl.
        fold (start_of history_id (stored_cursor f)). rewrite HL. reflexivity.
      - apply top_level_handler_run. }
    unfold opening, prologue. flatten. reflexivity.
  - destruct (Nat.eqb (length (default [] (history history_response))) 0) eqn:Hlen.
    + exists [Log INFO (FoundHistoryRecords 0); Log INFO NoNewHistoryRecords].
      split.
      * unfold process_history. etransitivity.
        { eapply try_except_inr.
          step Hsvc. step Hlast. step_emit. step_emit. step Hinner. cbn [negb].
          step_emit. step_emit.
          fold (start_of history_id (stored_cursor f)). rewrite HL.
          step_ret. step_emit. rewrite Hlen. step_emit.
          apply save_last_processed_history_id_run. }
        apply Nat.eqb_eq in Hlen. rewrite Hlen.
        unfold opening, prologue. cbn [state_file service]. flatten. reflexivity.
      * apply Nat.eqb_eq in Hlen.
        destruct (default [] (history history_response)); [|discriminate].
        repeat split.
    + destruct (records_loop_run (default [] (history history_response)) 0 f)
        as (loop & E & D & Hf & F).
      exists ([Log INFO (FoundHistoryRecords
                          (length (default [] (history history_response))))]
              ++ loop
              ++ [Log INFO (ProcessedNewMessages
                    (0 + length (omap (fetched env)
                           (added_ids (default [] (history history_response))))))]).
      split.
      * unfold process_history. etransitivity.
        { eapply try_except_inr.
          step Hsvc. step Hlast. step_emit. step_emit. step Hinner. cbn [negb].
          step_emit. step_emit.
          fold (start_of history_id (stored_cursor f)). rewrite HL.
          step_ret. step_emit. rewrite Hlen. step E. step_emit.
          apply save_last_processed_history_id_run. }
        unfold opening, prologue. cbn [state_file service]. flatten. reflexivity.
      * readings. rewrite D, Hf, F. rewrite !app_nil_r. repeat split.
Qed.

Lemma result_of_skip (pre : list event) (n m : Z) :
  result_of (pre ++ [Log INFO (NotNewerSkipping n m)]) = Some Skipped.
Proof. unfold result_of. by rewrite last_snoc. Qed.

Lemma last_saving_log (h : string) (f : option contents) (pre : list event) :
  last (pre ++ saving_log h f)
  = Some (if usable f then Log INFO (SavedLastProcessed h)
          else match f with
               | Some Garbage => Log ERROR (ErrorSavingStateFile JSONDecodeError)
               | _ => Log ERROR (ErrorSavingStateFile TypeError)
               end).
Proof.
  destruct f as [[|[]]|]; cbn [saving_log usable]; by rewrite last_snoc.
Qed.

(** A cursor that parses is a non-empty string, so once stored it is read
    back as the same number. *)
Lemma last_id_of_parsed (history_id : string) (n : Z) :
  int (JStr history_id) = inr n -> last_id_of (JStr history_id) = inr n.
Proof.
  intros H. unfold last_id_of. cbn [truthy].
  destruct (String.eqb_spec history_id ""); [subst; discriminate | exact H].
Qed.


Lemma skipped_call_of_not_newer (history_id : string) (s : handler) :
  not_newer history_id (stored_cursor (state_file s)) = true ->
  skipped_call s (process_history env history_id s).
Proof.
  destruct s as [f svc]. cbn [state_file]. intros Hnew.
  destruct (process_history_skips history_id f svc Hnew)
    as (n & m & Hn & Hm & Hle & ->).
  unfold skipped_call, prologue. cbn [final events result fst snd state_file].
  rewrite result_of_skip. readings.
  destruct (reading_log_quiet f) as (-> & -> & ->). repeat split.
Qed.

(** X24.  A call whose incoming cursor and stored cursor both parse, the
    incoming one not above the stored one, is skipped: it returns, issues
    no history fetch and no message fetch, delivers nothing to the
    consumer, and leaves the state file as it is.  In particular a call
    with a cursor that parses, made right after a call with the same
    cursor that was skipped or that saved its cursor, is skipped and
    delivers nothing. *)
Theorem stale_cursor_is_skipped :
  (forall (history_id : string) (s : handler) (incoming_id last_id : Z),
      int (JStr history_id) = inr incoming_id ->
      last_id_of (stored_cursor (state_file s)) = inr last_id ->
      incoming_id <= last_id ->
      skipped_call s (process_history env history_id s))
  /\ (forall (history_id : string) (s : handler) (incoming_id : Z),
        int (JStr history_id) = inr incoming_id ->
        let first := process_history env history_id s in
        result_of (events first) = Some Skipped \/ saved (events first) = true ->
        skipped_call (final first) (process_history env history_id (final first))).
Proof.
  split.
  - intros h s n m Hn Hm Hle. apply skipped_call_of_not_newer.
    unfold not_newer. rewrite Hn, Hm. lia.
  - intros h s n Hn first Hfirst. apply skipped_call_of_not_newer.
    destruct s as [f svc]. subst first.
    destruct (not_newer h (stored_cursor f)) eqn:Hnew.
    + destruct (process_history_skips h f svc Hnew)
        as (n' & m' & Hn' & Hm' & Hle & ->).
      exact Hnew.
    + pose proof (process_history_proceeds h f svc Hnew) as Hp.
      destruct (history_list env (start_of h (stored_cursor f))) as [e|resp].
      * exfalso. rewrite Hp in Hfirst. cbn [events snd] in Hfirst.
        unfold result_of, saved in Hfirst. rewrite last_snoc in Hfirst.
        unfold top_level_error in Hfirst.
        destruct (is_HttpError e); destruct Hfirst; discriminate.
      * destruct Hp as (body & Hp & _). rewrite Hp in *.
        cbn [final events result fst snd state_file] in *.
        unfold result_of, saved in Hfirst.
        rewrite app_assoc, last_saving_log in Hfirst.
        destruct (usable f) eqn:Hu.
        -- rewrite (stored_cursor_written _ _ Hu). unfold not_newer.
           rewrite (last_id_of_parsed _ _ Hn), Hn. lia.
        -- exfalso. destruct f as [[|[]]|]; destruct Hfirst; discriminate.
Qed.




(** X25.  In a call that goes past the freshness check and whose history
    fetch returns, the messages delivered are, in the order of the added
    messages, those whose fetch returned a message with a non-empty id and
    which pass the label filter: an added message whose fetch fails is
    left out and no other is.  Every added message is fetched, the call
    returns, and it ends by saving the incoming cursor: the state file is
    the one the save writes, which on a state file that is absent or holds
    a JSON object stores the incoming cursor. *)
Theorem fetch_failure_skips_one_message
    (history_id : string) (s : handler) (history_response : history_response) :
  not_newer history_id (stored_cursor (state_file s)) = false ->
  history_list env (start_of history_id (stored_cursor (state_file s)))
  = inr history_response ->
  let ids := added_ids (default [] (history history_response)) in
  let r := process_history env history_id s in
  result r = inr tt
  /\ message_fetches (events r) = ids
  /\ deliveries (events r)
     = List.filter (passes_label_filter env) (omap (fetched env) ids)
  /\ (forall id m, In id ids -> fetched env id = Some m ->
      passes_label_filter env m = true -> In m (deliveries (events r)))
  /\ result_of (events r) = Some Completed
  /\ state_file (final r) = written history_id (state_file s)
  /\ (usable (state_file s) = true ->
      stored_cursor (state_file (final r)) = JStr history_id
      /\ saved (events r) = true).
Proof.
  destruct s as [f svc]. cbn [state_file]. intros Hnew HL. cbv zeta.
  pose proof (process_history_proceeds history_id f svc Hnew) as Hp.
  rewrite HL in Hp. destruct Hp as (body & Hp & D & Hf & F).
  rewrite Hp. cbn [final events result fst snd state_file].
  set (ids := added_ids (default [] (history history_response))) in *.
  assert (HD : deliveries (opening history_id f ++ body ++ saving_log history_id f)
               = List.filter (passes_label_filter env) (omap (fetched env) ids)).
  { unfold opening, prologue. readings.
    destruct (reading_log_quiet f) as (-> & _ & _).
    destruct (saving_log_quiet history_id f) as (-> & _ & _).
    destruct (parse_fails _ _); readings; rewrite D; tidy; reflexivity. }
  repeat split.
  - unfold opening, prologue. readings.
    destruct (reading_log_quiet f) as (_ & _ & ->).
    destruct (saving_log_quiet history_id f) as (_ & _ & ->).
    destruct (parse_fails _ _); readings; rewrite F; tidy; reflexivity.
  - exact HD.
  - intros id m Hin Hfetched Hpass. rewrite HD.
    apply List.filter_In. split; [|exact Hpass].
    apply list_elem_of_In, list_elem_of_omap. exists id.
    split; [by apply list_elem_of_In | exact Hfetched].
  - unfold result_of. rewrite !app_assoc, last_saving_log.
    destruct f as [[|[]]|]; reflexivity.
  - apply stored_cursor_written; assumption.
  - unfold saved. rewrite !app_assoc, last_saving_log.
    match goal with H : usable f = true |- _ => rewrite H end. reflexivity.
Qed.

(** C9.  When the incoming cursor or the stored cursor does not parse, the
    call is not stopped by the freshness check: it logs the warning that
    the cursors could not be compared and issues the history fetch, from
    the stored cursor when there is one and from the incoming cursor
    otherwise. *)
Theorem malformed_cursor_proceeds (history_id : string) (s : handler) :
  parse_fails history_id (stored_cursor (state_file s)) = true ->
  let r := process_history env history_id s in
  In (Log WARNING CouldNotCompare) (events r)
  /\ history_fetches (events r)
     = [start_of history_id (stored_cursor (state_file s))]
  /\ result_of (events r) <> Some Skipped.
Proof.
  destruct s as [f svc]. cbn [state_file]. intros Hfail. cbv zeta.
  assert (Hnew : not_newer history_id (stored_cursor f) = false).
  { unfold not_newer, parse_fails in *.
    destruct (int (JStr history_id)); [reflexivity|].
    destruct (last_id_of (stored_cursor f)); [reflexivity | discriminate]. }
  pose proof (process_history_proceeds history_id f svc Hnew) as Hp.
  assert (Hopen : In (Log WARNING CouldNotCompare) (opening history_id f)
                  /\ history_fetches (opening history_id f)
                     = [start_of history_id (stored_cursor f)]).
  { unfold opening, prologue. rewrite Hfail. split.
    - rewrite !in_app_iff. right. left. left. reflexivity.
    - readings. destruct (reading_log_quiet f) as (_ & -> & _). reflexivity. }
  destruct Hopen as [Hwarn Hfetch].
  destruct (history_list env (start_of history_id (stored_cursor f))) as [e|resp].
  - rewrite Hp. cbn [events snd]. repeat split.
    + apply in_or_app. left. exact Hwarn.
    + readings. rewrite Hfetch. unfold top_level_error.
      destruct (is_HttpError e); reflexivity.
    + unfold result_of. rewrite last_snoc. unfold top_level_error.
      destruct (is_HttpError e); discriminate.
  - destruct Hp as (body & -> & _ & Hb & _). cbn [events snd]. repeat split.
    + apply in_or_app. left. exact Hwarn.
    + readings. rewrite Hfetch, Hb.
      destruct (saving_log_quiet history_id f) as (_ & -> & _). reflexivity.
    + unfold result_of. rewrite !app_assoc, last_saving_log.
      destruct f as [[|[]]|]; discriminate.
Qed.

(** C4.  No exception leaves [process_history]: the call returns on every
    input.  A call whose result is [Failed] leaves the state file as it
    is.  And when the history fetch of a call raises, whatever the
    exception, the top-level handler logs it as the last record of the
    call, the result is [Failed], nothing is delivered, the state file
    is as it was, and the same call made again fetches the same range. *)
Theorem top_level_failure_keeps_cursor (history_id : string) (s : handler) :
  let r := process_history env history_id s in
  result r = inr tt
  /\ (result_of (events r) = Some Failed -> state_file (final r) = state_file s)
  /\ (forall e,
        not_newer history_id (stored_cursor (state_file s)) = false ->
        history_list env (start_of history_id (stored_cursor (state_file s))) = inl e ->
        last (events r) = Some (top_level_error e)
        /\ result_of (events r) = Some Failed
        /\ deliveries (events r) = []
        /\ state_file (final r) = state_file s
        /\ history_fetches (events (process_history env history_id (final r)))
           = history_fetches (events r)).
Proof.
  destruct s as [f svc]. cbn [state_file]. cbv zeta.
  destruct (not_newer history_id (stored_cursor f)) eqn:Hnew.
  - destruct (process_history_skips history_id f svc Hnew)
      as (n & m & Hn & Hm & Hle & ->).
    cbn [final events result fst snd state_file].
    repeat split; discriminate.
  - pose proof (process_history_proceeds history_id f svc Hnew) as Hp.
    pose proof (process_history_proceeds history_id f true Hnew) as Hp'.
    destruct (history_list env (start_of history_id (stored_cursor f))) as [e|resp].
    + rewrite Hp. cbn [final events result fst snd state_file].
      split; [reflexivity|]. split; [reflexivity|].
      intros e' _ [= <-]. split; [by rewrite last_snoc|]. split; [|split; [|split]].
      * unfold result_of. rewrite last_snoc. unfold top_level_error.
        destruct (is_HttpError e); reflexivity.
      * unfold opening, prologue. readings.
        destruct (reading_log_quiet f) as (-> & _ & _). unfold top_level_error.
        destruct (parse_fails _ _), (is_HttpError e); reflexivity.
      * reflexivity.
      * rewrite Hp'. reflexivity.
    + destruct Hp as (body & -> & _). cbn [final events result fst snd state_file].
      split; [reflexivity|]. split; [|intros e' _ [=]].
      unfold result_of. rewrite !app_assoc, last_saving_log.
      destruct f as [[|[]]|]; discriminate.
Qed.

(** C5.  A fetched message is handed to the consumer exactly when no label
    identifier is configured or one of the configured identifiers is among
    the labels of the message; it is handed on once, and
    [process_message] returns and leaves the handler as it is. *)
Theorem label_filter_forwards (m : message) (s : handler) :
  let r := process_message env m s in
  let allowed :=
    get_gmail_watch_label_ids env = []
    \/ exists label, In label (get_gmail_watch_label_ids env)
                     /\ In label (default [] (labelIds m)) in
  result r = inr tt /\ final r = s
  /\ (allowed -> deliveries (events r) = [m])
  /\ (~ allowed -> deliveries (events r) = []).
Proof.
  cbv zeta. destruct (process_message_run m s) as (evs & -> & D & _).
  cbn [final events result fst snd]. rewrite D.
  assert (Hiff : passes_label_filter env m = true
                 <-> (get_gmail_watch_label_ids env = []
                      \/ exists label, In label (get_gmail_watch_label_ids env)
                                       /\ In label (default [] (labelIds m)))).
  { unfold passes_label_filter. rewrite orb_true_iff, existsb_exists.
    split.
    - intros [H|(label & Hin & H)].
      + left. apply Nat.eqb_eq in H.
        destruct (get_gmail_watch_label_ids env); [reflexivity|discriminate].
      + right. exists label. split; [exact Hin|].
        unfold label_in in H. apply existsb_exists in H as (x & Hx & Heq).
        apply String.eqb_eq in Heq. subst. exact Hx.
    - intros [H|(label & Hin & H)].
      + left. rewrite H. reflexivity.
      + right. exists label. split; [exact Hin|].
        unfold label_in. apply existsb_exists. exists label.
        split; [exact H | apply String.eqb_refl]. }
  repeat split.
  - intros H. apply Hiff in H. rewrite H. reflexivity.
  - intros H. destruct (passes_label_filter env m); [|reflexivity].
    exfalso. apply H, Hiff. reflexivity.
Qed.

End Reconciliation.

(** ** The MIME decoder *)

Section Decoder.
Import EmailUtils ProcessEmail.

(** Induction on a part tree: the sub-parts of a part satisfy the
    property. *)
Lemma part_tree_ind (P : part -> Prop) :
  (forall mt fn b hs ps,
      match ps with Some subparts => Forall P subparts | None => True end ->
      P (Part mt fn b hs ps)) ->
  forall p, P p.
Proof.
  intros step. fix go 1. intros [mt fn b hs ps]. apply step.
  destruct ps as [subparts|]; [|exact I].
  induction subparts as [|q subparts IH]; constructor; [apply go | exact IH].
Qed.

Lemma fold_find_attachments (subparts : list part) :
  Forall (fun q => forall acc,
            find_attachments_in_part q acc = acc ++ omap attachment_of (all_parts q))
         subparts ->
  forall acc,
    fold_left (fun acc subpart => find_attachments_in_part subpart acc) subparts acc
    = acc ++ omap attachment_of (flat_map all_parts subparts).
Proof.
  induction 1 as [|q subparts Hq _ IH]; intros acc; cbn [fold_left flat_map].
  - by rewrite app_nil_r.
  - rewrite Hq, IH, omap_app, app_assoc. reflexivity.
Qed.

Lemma find_attachments_in_part_spec (p : part) (acc : list attachment) :
  find_attachments_in_part p acc = acc ++ omap attachment_of (all_parts p).
Proof.
  revert acc. induction p as [mt fn b hs ps IH] using part_tree_ind. intros acc.
  cbn [find_attachments_in_part all_parts].
  assert (Hhere :
    (if str_truthy (default "" fn) then
       match attachmentId (default empty_body b) with
       | Some aid =>
           if str_truthy aid then
             acc ++ [ {| att_filename := default "" fn;
                         att_mimeType := default "" mt;
                         att_attachmentId := aid;
                         att_size := default 0 (body_size (default empty_body b)) |} ]
           else acc
       | None => acc
       end
     else acc)
    = acc ++ omap attachment_of [Part mt fn b hs ps]).
  { change (omap attachment_of [Part mt fn b hs ps])
      with (match attachment_of (Part mt fn b hs ps) with
            | Some a => [a]
            | None => []
            end).
    unfold attachment_of. cbn [filename body mimeType].
    destruct fn as [fn|]; [|by rewrite app_nil_r].
    change (default "" (Some fn)) with fn.
    destruct (attachmentId (default empty_body b)) as [aid|].
    - destruct (str_truthy fn), (str_truthy aid); cbn [andb];
        by rewrite ?app_nil_r.
    - destruct (str_truthy fn); by rewrite app_nil_r. }
  rewrite Hhere. destruct ps as [subparts|].
  - rewrite (fold_find_attachments subparts IH).
    change (Part mt fn b hs (Some subparts) :: flat_map all_parts subparts)
      with ([Part mt fn b hs (Some subparts)] ++ flat_map all_parts subparts).
    rewrite omap_app, app_assoc. reflexivity.
  - reflexivity.
Qed.

(** C7.  Attachment extraction returns one reference for each part of the
    tree that carries a non-empty filename and a non-empty
    [body.attachmentId], and nothing else, in the order of the walk (a
    part before its sub-parts, sub-parts from first to last); a part that
    occurs twice, or an attachment identifier that is reused, is listed
    each time. *)
Theorem extract_attachments_spec (m : message) :
  extract_attachments m
  = omap attachment_of (all_parts (default empty_part (payload m))).
Proof.
  unfold extract_attachments. by rewrite find_attachments_in_part_spec.
Qed.

Variable b64decode_utf8 : string -> exn + string.
Variable extract_clean_text_from_html : string -> string.




End Decoder.

(** ** Watch renewal *)

Section Renewal.
Import WatchManager.

Ltac run_renew :=
  unfold renew_watch, try_except, bind, WatchManager.get_service, get_state,
    put_state, WatchManager.log, emit, lift, ret, raise; cbn.

Ltac renew_cases env :=
  repeat match goal with
    | |- context [first_detail_get ?d ?k ?x] =>
        destruct (first_detail_get d k x); cbn
    | |- context [String.eqb ?a ?b] => destruct (String.eqb a b); cbn
    | |- context [Nat.eqb ?a ?b] => destruct (Nat.eqb a b); cbn
    | |- context [users_watch env ?q] => destruct (users_watch env q); cbn
    | |- context [is_HttpError ?x] => destruct (is_HttpError x); cbn
    end.

(** Whatever the remote service answers, the first remote call of a
    renewal is the stop. *)
Lemma renew_watch_first_call (env : collaborators) (s : manager) :
  head (remote_calls (events (renew_watch env s))) = Some UsersStop.
Proof.
  destruct s as [svc].
  destruct (users_stop env) as [e|[]] eqn:Hstop;
    destruct svc; run_renew; rewrite Hstop; cbn; renew_cases env; reflexivity.
Qed.

(** C8.  A renewal first tries to stop the subscription: the stop is its
    first remote call.  When the stop fails with an HTTP error whose first
    detail gives the reason [failedPrecondition], the renewal goes on as
    if the stop had returned: it logs that there was no watch to stop,
    issues the watch request, and its result, the state of the manager
    and its remote calls are those of the same renewal with a stop that
    returns; in particular the result is a success when the watch request
    returns. *)
Theorem stop_precondition_is_benign (env : collaborators) (s : manager) :
  head (remote_calls (events (renew_watch env s))) = Some UsersStop
  /\ (forall (d : detail) (rest : list detail),
        users_stop env = inl (HttpError (DetailsList (d :: rest))) ->
        reason d = Some "failedPrecondition" ->
        let r := renew_watch env s in
        let r_ok := renew_watch (with_stop env (inr tt)) s in
        result r = result r_ok
        /\ final r = final r_ok
        /\ remote_calls (events r) = remote_calls (events r_ok)
        /\ In (Log INFO NoExistingWatchToStop) (events r)
        /\ exists request,
             remote_calls (events r) = [UsersStop; UsersWatch request]
             /\ forall response,
                  users_watch env request = inr response ->
                  result r = inr (StatusSuccess (historyId response)
                                                (expiration response))).
Proof.
  split; [apply renew_watch_first_call|].
  intros d rest Hstop Hreason. cbv zeta. destruct s as [svc].
  destruct svc; run_renew; rewrite Hstop; cbn; rewrite Hreason; cbn;
    destruct (Nat.eqb (length (get_gmail_watch_label_ids env)) 0); cbn;
    match goal with
    | |- context [users_watch env ?q] =>
        destruct (users_watch env q) as [e|response] eqn:Hwatch; cbn
    end;
    try (destruct (is_HttpError e); cbn; renew_cases env);
    (repeat split; [tauto | eexists; split; [reflexivity|]]);
    intros response' Hw; rewrite Hw in Hwatch; congruence.
Qed.

End Renewal.

(** * The properties on sample runs *)

Section SampleRuns.
Import GmailHandler EmailUtils ProcessEmail Samples.

(** The scenario of the specification: stored cursor "1000", incoming
    "1050", one added message [m1]. *)
Example scenario_1050 :
  let r := process_history (mailbox (inr one_added) []) "1050" at_1000 in
  deliveries (events r) = [m1]
  /\ history_fetches (events r) = [JStr "1000"]
  /\ stored_cursor (state_file (final r)) = JStr "1050"
  /\ entry (state_file (final r)) "owner" = Some (JStr "ops")
  /\ result_of (events r) = Some Completed.
Proof. vm_compute. repeat split. Qed.

Example second_fetch_of_three_fails :
  let r := process_history (mailbox (inr three_added) []) "1050" at_1000 in
  message_fetches (events r) = ["m1"; "m2"; "m3"]
  /\ deliveries (events r) = [m1; m3]
  /\ stored_cursor (state_file (final r)) = JStr "1050".
Proof. vm_compute. repeat split. Qed.

Example important_only :
  let env := mailbox (inr three_added) ["IMPORTANT"] in
  deliveries (events (process_message env m1 at_1000)) = []
  /\ deliveries (events (process_message env m3 at_1000)) = [m3]
  /\ deliveries (events (process_history env "1050" at_1000)) = [m3].
Proof. vm_compute. repeat split. Qed.

Example history_fetch_raises :
  let r := process_history
             (mailbox (inl (HttpError (DetailsText "rate limit"))) []) "1050" at_1000 in
  result r = inr tt
  /\ result_of (events r) = Some Failed
  /\ state_file (final r) = state_file at_1000.
Proof. vm_compute. repeat split. Qed.

(** A state file that is not JSON is never written: the call completes,
    logs the failed save, and the next call with the same cursor goes
    through the same range again. *)
Example unreadable_state_file_is_left_alone :
  let env := mailbox (inr one_added) [] in
  let r := process_history env "1050" unreadable in
  state_file (final r) = state_file unreadable
  /\ last (events r) = Some (Log ERROR (ErrorSavingStateFile JSONDecodeError))
  /\ deliveries (events (process_history env "1050" (final r))) = [m1].
Proof. vm_compute. repeat split. Qed.

Example int_of_cursor_strings :
  int (JStr " +1_000 ") = inr 1000 /\ int (JStr "007") = inr 7
  /\ int (JStr "-5") = inr (-5) /\ int (JStr "") = inl ValueError
  /\ int (JStr "1__0") = inl ValueError /\ int (JStr "12a") = inl ValueError.
Proof. vm_compute. repeat split. Qed.

Example invoice_has_one_attachment :
  extract_attachments invoice
  = [ {| att_filename := "invoice.pdf"; att_mimeType := "application/pdf";
         att_attachmentId := "att-1"; att_size := 2048 |} ].
Proof. reflexivity. Qed.

Example reused_attachment_is_listed_twice :
  map att_attachmentId (extract_attachments twice_attached) = ["att-1"; "att-1"].
Proof. reflexivity. Qed.

Example hello_is_decoded_both_ways :
  extract_message_body b64decode_utf8 extract_clean_text_from_html m3 false false
  = "Hello"
  /\ extract_message_body b64decode_utf8 extract_clean_text_from_html m3 true true
     = "Hello"
  /\ extract_message_body b64decode_utf8 extract_clean_text_from_html m3 true false
     = "<p>Hello</p>"
  /\ html_body b64decode_utf8 extract_clean_text_from_html m1 = ""
  /\ body_text b64decode_utf8 extract_clean_text_from_html m1 = "Hello".
Proof. vm_compute. repeat split. Qed.

(** A stop that fails for another reason is logged as a warning and the
    renewal goes on; a stop that raises something other than an HTTP
    error ends the renewal before the watch request. *)
Example renewal_after_other_stop_failures :
  let denied := HttpError (DetailsList [Detail (Some "forbidden") None]) in
  let r := WatchManager.renew_watch (gmail (inl denied)) (WatchManager.Manager false) in
  let r' := WatchManager.renew_watch (gmail (inl (OtherException "TimeoutError")))
              (WatchManager.Manager false) in
  result r = inr (WatchManager.StatusSuccess (Some "1050") (Some "1700000000000"))
  /\ In (WatchManager.Log WatchManager.WARNING
           (WatchManager.ErrorStoppingExisting denied)) (events r)
  /\ result r' = inr (WatchManager.StatusError (OtherException "TimeoutError"))
  /\ WatchManager.remote_calls (events r') = [WatchManager.UsersStop].
Proof. vm_compute. repeat split. tauto. Qed.

(** ** Instances of the theorems *)

Lemma save_preserves_other_keys_witness :
  "owner" <> key
  /\ entry (state_file (final (save_last_processed_history_id "1050" at_1000))) "owner"
     = entry (state_file at_1000) "owner".
Proof.
  assert (H : "owner" <> key) by discriminate.
  split; [exact H|].
  exact (proj1 (proj2 (proj2 (save_preserves_other_keys "1050" at_1000))) "owner" H).
Defined.

Lemma stale_cursor_is_skipped_witness :
  skipped_call at_1000
    (process_history (mailbox (inr one_added) []) "1000" at_1000)
  /\ skipped_call
       (final (process_history (mailbox (inr nothing_added) []) "1050" at_1000))
       (process_history (mailbox (inr nothing_added) []) "1050"
          (final (process_history (mailbox (inr nothing_added) []) "1050" at_1000))).
Proof.
  split.
  - apply (proj1 (stale_cursor_is_skipped (mailbox (inr one_added) []))
             "1000" at_1000 1000 1000); [reflexivity | reflexivity | lia].
  - apply (proj2 (stale_cursor_is_skipped (mailbox (inr nothing_added) []))
             "1050" at_1000 1050); [reflexivity | right; reflexivity].
Defined.


Lemma fetch_failure_skips_one_message_witness :
  let r := process_history (mailbox (inr three_added) []) "1050" at_1000 in
  fetched (mailbox (inr three_added) []) "m2" = None
  /\ message_fetches (events r) = ["m1"; "m2"; "m3"]
  /\ deliveries (events r) = [m1; m3]
  /\ stored_cursor (state_file (final r)) = JStr "1050".
Proof.
  cbv zeta.
  pose proof (fetch_failure_skips_one_message (mailbox (inr three_added) [])
                "1050" at_1000 three_added eq_refl eq_refl) as H.
  cbv zeta in H. destruct H as (_ & Hf & Hd & _ & _ & _ & Hu).
  split; [reflexivity|]. split; [exact Hf|]. split; [exact Hd|].
  exact (proj1 (Hu eq_refl)).
Defined.

Lemma malformed_cursor_proceeds_witness :
  let r := process_history (mailbox (inr one_added) []) "10x50" at_1000 in
  In (Log WARNING CouldNotCompare) (events r)
  /\ history_fetches (events r) = [JStr "1000"].
Proof.
  cbv zeta.
  pose proof (malformed_cursor_proceeds (mailbox (inr one_added) [])
                "10x50" at_1000 eq_refl) as H.
  cbv zeta in H. destruct H as (Hw & Hf & _). split; [exact Hw | exact Hf].
Defined.

Lemma top_level_failure_keeps_cursor_witness :
  let env := mailbox (inl (OtherException "ConnectionError")) [] in
  let r := process_history env "1050" at_1000 in
  result r = inr tt
  /\ result_of (events r) = Some Failed
  /\ state_file (final r) = state_file at_1000.
Proof.
  cbv zeta.
  pose proof (top_level_failure_keeps_cursor
                (mailbox (inl (OtherException "ConnectionError")) [])
                "1050" at_1000) as H.
  cbv zeta in H. destruct H as (Hr & _ & He).
  destruct (He (OtherException "ConnectionError") eq_refl eq_refl)
    as (_ & Hfailed & _ & Hfile & _).
  split; [exact Hr|]. split; [exact Hfailed | exact Hfile].
Defined.

Lemma label_filter_forwards_witness :
  let env := mailbox (inr one_added) ["IMPORTANT"] in
  deliveries (events (process_message env m3 at_1000)) = [m3]
  /\ deliveries (events (process_message env m1 at_1000)) = [].
Proof.
  cbv zeta. split.
  - apply (proj1 (proj2 (proj2 (label_filter_forwards
                                  (mailbox (inr one_added) ["IMPORTANT"]) m3 at_1000)))).
    right. exists "IMPORTANT". split; [left; reflexivity | right; left; reflexivity].
  - apply (proj2 (proj2 (proj2 (label_filter_forwards
                                  (mailbox (inr one_added) ["IMPORTANT"]) m1 at_1000)))).
    intros [H | (label & [<- | []] & [H | [H | []]])]; discriminate.
Defined.


Lemma stop_precondition_is_benign_witness :
  let r := WatchManager.renew_watch (gmail (inl no_watch_to_stop))
             (WatchManager.Manager false) in
  let r_ok := WatchManager.renew_watch
                (WatchManager.with_stop (gmail (inl no_watch_to_stop)) (inr tt))
                (WatchManager.Manager false) in
  result r = result r_ok
  /\ In (WatchManager.Log WatchManager.INFO WatchManager.NoExistingWatchToStop)
        (events r).
Proof.
  cbv zeta.
  pose proof (proj2 (stop_precondition_is_benign (gmail (inl no_watch_to_stop))
                       (WatchManager.Manager false))
                (Detail (Some "failedPrecondition") (Some "No watch")) []
                eq_refl eq_refl) as H.
  cbv zeta in H. destruct H as (Hr & _ & _ & Hin & _).
  split; [exact Hr | exact Hin].
Defined.

End SampleRuns.

(** * Further properties of the code *)

(** ** Strings *)

Section Strings.

Lemma append_nil_r (s : string) : String.append s "" = s.
Proof.
  induction s as [|a s IH]; [reflexivity|].
  change (String a (String.append s "") = String a s). by rewrite IH.
Qed.

Lemma append_assoc (s1 s2 s3 : string) :
  String.append (String.append s1 s2) s3 = String.append s1 (String.append s2 s3).
Proof.
  induction s1 as [|a s1 IH]; [reflexivity|].
  change (String a (String.append (String.append s1 s2) s3)
          = String a (String.append s1 (String.append s2 s3))).
  by rewrite IH.
Qed.

Lemma lower_ascii_idempotent (a : ascii) : lower_ascii (lower_ascii a) = lower_ascii a.
Proof. destruct a as [[] [] [] [] [] [] [] []]; reflexivity. Qed.

Lemma lower_idempotent (s : string) : lower (lower s) = lower s.
Proof.
  induction s as [|a s IH]; cbn [lower]; [reflexivity|].
  by rewrite lower_ascii_idempotent, IH.
Qed.

End Strings.

(** ** The header index and the decoded text *)

Section HeaderIndex.
Import EmailUtils EmailHeaders.

Lemma find_snoc {A} (p : A -> bool) (l : list A) (x : A) :
  List.find p (l ++ [x])
  = match List.find p l with
    | Some y => Some y
    | None => if p x then Some x else None
    end.
Proof.
  induction l as [|y l IH]; cbn [List.find app]; [reflexivity|].
  destruct (p y); [reflexivity | exact IH].
Qed.

Lemma fold_headers_lookup (l : list header) (acc : gmap string string) (k : string) :
  fold_left (fun headers header => <[ lower (h_name header) := h_value header ]> headers)
    l acc !! k
  = match List.find (fun h => String.eqb (lower (h_name h)) k) (rev l) with
    | Some h => Some (h_value h)
    | None => acc !! k
    end.
Proof.
  revert acc. induction l as [|h l IH]; intros acc; cbn [fold_left rev List.find].
  - reflexivity.
  - rewrite IH, find_snoc.
    destruct (List.find _ (rev l)); [reflexivity|].
    destruct (String.eqb_spec (lower (h_name h)) k) as [->|Hne].
    + by rewrite lookup_insert_eq.
    + by rewrite lookup_insert_ne.
Qed.

(** X1.  The header index maps a name to the value of the last header
    whose lower-cased name is that name, and to nothing when there is
    none; a name that is not in lower case is never a key. *)
Theorem get_headers_last_wins (m : message) (k : string) :
  get_headers m !! k
  = h_value <$> List.find (fun h => String.eqb (lower (h_name h)) k)
                  (rev (default [] (headers (default empty_part (payload m)))))
  /\ (lower k <> k -> get_headers m !! k = None).
Proof.
  unfold get_headers. rewrite fold_headers_lookup, lookup_empty. split.
  - destruct (List.find _ _); reflexivity.
  - intros Hk. destruct (List.find _ _) as [h|] eqn:Hfind; [|reflexivity].
    apply List.find_some in Hfind as [_ Heq]. apply String.eqb_eq in Heq.
    exfalso. apply Hk. rewrite <- Heq. apply lower_idempotent.
Qed.

(** X2.  The subject and sender that [process_message] logs (the first
    matching header) are those of the header index (the last matching
    header) whenever the headers with that name all carry one value. *)
Theorem first_and_last_header_agree (m : message) (k dflt : string) :
  let header_list := default [] (headers (default empty_part (payload m))) in
  (forall h1 h2, In h1 header_list -> In h2 header_list ->
                 lower (h_name h1) = k -> lower (h_name h2) = k ->
                 h_value h1 = h_value h2) ->
  GmailHandler.header_value header_list k dflt = default dflt (get_headers m !! k).
Proof.
  cbv zeta. intros Hsame.
  destruct (get_headers_last_wins m k) as [-> _].
  unfold GmailHandler.header_value.
  set (l := default [] (headers (default empty_part (payload m)))) in *.
  destruct (List.find _ l) as [h1|] eqn:H1.
  - apply List.find_some in H1 as [Hin1 Heq1]. apply String.eqb_eq in Heq1.
    destruct (List.find _ (rev l)) as [h2|] eqn:H2.
    + apply List.find_some in H2 as [Hin2 Heq2]. apply String.eqb_eq in Heq2.
      apply in_rev in Hin2. cbn. by apply Hsame.
    + exfalso. pose proof (List.find_none _ _ H2 h1) as Hnone.
      rewrite <- in_rev in Hnone. specialize (Hnone Hin1). cbn in Hnone.
      rewrite Heq1, String.eqb_refl in Hnone. discriminate.
  - destruct (List.find _ (rev l)) as [h2|] eqn:H2; [|reflexivity].
    exfalso. apply List.find_some in H2 as [Hin2 Heq2].
    apply in_rev in Hin2. pose proof (List.find_none _ _ H1 h2 Hin2) as Hnone.
    cbn in Hnone. rewrite Heq2 in Hnone. discriminate.
Qed.

Variable b64decode_utf8 : string -> exn + string.
Variable extract_clean_text_from_html : string -> string.

Lemma fold_extract_text (html_part strip_html : bool) (subparts : list part) :
  Forall (fun q =>
            extract_text_from_part b64decode_utf8 extract_clean_text_from_html
              q html_part strip_html
            = concat_all (map (contribution b64decode_utf8 extract_clean_text_from_html
                                 html_part strip_html) (all_parts q)))
         subparts ->
  forall text,
    fold_left
      (fun text subpart =>
         String.append text
           (extract_text_from_part b64decode_utf8 extract_clean_text_from_html
              subpart html_part strip_html))
      subparts text
    = String.append text
        (concat_all (map (contribution b64decode_utf8 extract_clean_text_from_html
                            html_part strip_html)
                       (flat_map all_parts subparts))).
Proof.
  induction 1 as [|q subparts Hq _ IH]; intros text; cbn [fold_left flat_map map].
  - cbn. by rewrite append_nil_r.
  - rewrite IH, Hq, map_app, append_assoc. f_equal.
    unfold concat_all. rewrite fold_right_app.
    generalize (map (contribution b64decode_utf8 extract_clean_text_from_html
                       html_part strip_html) (all_parts q)).
    intros l. induction l as [|x l IHl]; cbn; [reflexivity|].
    by rewrite append_assoc, IHl.
Qed.

Lemma extract_text_from_part_concat (p : part) (html_part strip_html : bool) :
  extract_text_from_part b64decode_utf8 extract_clean_text_from_html
    p html_part strip_html
  = concat_all (map (contribution b64decode_utf8 extract_clean_text_from_html
                       html_part strip_html) (all_parts p)).
Proof.
  induction p as [mt fn b hs ps IH] using part_tree_ind.
  cbn [extract_text_from_part all_parts map concat_all fold_right].
  fold (concat_all (map (contribution b64decode_utf8 extract_clean_text_from_html
                           html_part strip_html)
                      match ps with
                      | Some subparts => flat_map all_parts subparts
                      | None => []
                      end)).
  assert (Hhere :
    (if String.eqb (default "" mt) "text/plain" && negb html_part then
       if str_truthy (default "" (data (default empty_body b))) then
         match b64decode_utf8 (default "" (data (default empty_body b))) with
         | inr decoded => decoded
         | inl _ => ""
         end
       else ""
     else if String.eqb (default "" mt) "text/html" && html_part then
       if str_truthy (default "" (data (default empty_body b))) then
         match b64decode_utf8 (default "" (data (default empty_body b))) with
         | inr decoded =>
             if strip_html then extract_clean_text_from_html decoded else decoded
         | inl _ => ""
         end
       else ""
     else "")
    = contribution b64decode_utf8 extract_clean_text_from_html html_part strip_html
        (Part mt fn b hs ps)).
  { unfold contribution, matching_part. cbn [mimeType body].
    destruct html_part; cbn [negb andb];
      rewrite ?andb_false_r, ?andb_true_r;
      destruct (String.eqb (default "" mt) "text/html"),
               (String.eqb (default "" mt) "text/plain"),
               (str_truthy (default "" (data (default empty_body b))));
      cbn [andb]; reflexivity. }
  rewrite Hhere. destruct ps as [subparts|].
  - by apply fold_extract_text.
  - cbn. by rewrite append_nil_r.
Qed.

(** X3.  The text of a message body is the concatenation, in traversal
    order, of what each part of the requested kind with non-empty data
    decodes to, with surrounding whitespace removed; a part whose data
    does not decode adds nothing and does not stop the walk, and HTML is
    cleaned only when HTML is wanted and stripping is asked for. *)
Theorem extract_message_body_concat (m : message) (html_part strip_html : bool) :
  extract_message_body b64decode_utf8 extract_clean_text_from_html m html_part strip_html
  = strip (concat_all
             (map (contribution b64decode_utf8 extract_clean_text_from_html
                     html_part strip_html)
                (all_parts (default empty_part (payload m))))).
Proof. unfold extract_message_body. by rewrite extract_text_from_part_concat. Qed.

End HeaderIndex.

(** ** The state store, continued *)

Section StateStoreMore.
Import GmailHandler.

(** X4.  A saved cursor is read back: on a state file that is absent or
    holds a JSON object, reading after a save returns the saved cursor
    and logs nothing; on any other state file the save changes nothing
    and reading returns [None].  A second save overwrites the first: two
    saves leave the handler as the second alone would. *)
Theorem saved_cursor_is_read_back (h1 h2 : string) (s : handler) :
  let s1 := final (save_last_processed_history_id h1 s) in
  let r := get_last_processed_history_id s1 in
  (usable (state_file s) = true -> result r = inr (JStr h1) /\ events r = [])
  /\ (usable (state_file s) = false ->
      state_file s1 = state_file s /\ result r = inr JNull)
  /\ final (save_last_processed_history_id h2 s1)
     = final (save_last_processed_history_id h2 s).
Proof.
  cbv zeta. rewrite !save_last_processed_history_id_run.
  cbn [final fst snd]. rewrite get_last_processed_history_id_run.
  cbn [result events final fst snd state_file service].
  split; [|split].
  - intros Hu. rewrite (stored_cursor_written _ _ Hu). split; [reflexivity|].
    destruct (state_file s) as [[|[]]|]; try discriminate Hu; reflexivity.
  - intros Hu. rewrite (written_unusable _ _ Hu). split; [reflexivity|].
    destruct (state_file s) as [[|[]]|]; try discriminate Hu; reflexivity.
  - f_equal. destruct (state_file s) as [[|[]]|]; cbn [written]; try reflexivity.
    by rewrite insert_insert_eq.
Qed.

End StateStoreMore.

(** ** Stopping the watch and querying the profile *)

Section WatchMore.
Import WatchManager WatchManagerMore.

Ltac run_more :=
  unfold stop_watch, get_watch_status, try_except, bind,
    WatchManagerMore.get_service, WatchManager.get_service, get_state,
    put_state, WatchManagerMore.log, WatchManager.log, emit, lift, ret, raise;
  cbn.

Ltac run_renewal :=
  unfold renew_watch, try_except, bind, WatchManager.get_service, get_state,
    put_state, WatchManager.log, emit, lift, ret, raise; cbn.

(** X5.  [stop_watch] never raises and makes one remote call, the stop;
    it reports success exactly when the stop returned, and reports any
    exception of the stop as an error, an HTTP error with the reason
    [failedPrecondition] included. *)
Theorem stop_watch_reports_the_stop (env : collaborators) (s : manager) :
  let r := stop_watch env s in
  remote_calls (events r) = [Shared UsersStop]
  /\ final r = Manager true
  /\ result r = match users_stop env with
                | inr _ => inr StopSuccess
                | inl e => inr (StopError e)
                end.
Proof.
  cbv zeta. destruct s as [svc].
  destruct (users_stop env) as [e|[]] eqn:Hstop;
    destruct svc; run_more; rewrite Hstop; cbn;
    try (destruct (is_HttpError e); cbn); repeat split.
Qed.

(** X6.  [get_watch_status] makes one remote call, the profile query.
    It returns the profile when the query returns and an error dictionary
    carrying the exception when the query raises, except that an HTTP
    error whose details are a non-empty text makes the method itself
    raise [AttributeError] from its handler. *)
Theorem get_watch_status_outcomes (users_getProfile : exn + profile) (s : manager) :
  let r := get_watch_status users_getProfile s in
  remote_calls (events r) = [UsersGetProfile]
  /\ match users_getProfile with
     | inr p => result r = inr (ProfileSuccess p)
     | inl e =>
         if text_details e then result r = inl AttributeError
         else if is_HttpError e then
           exists error_reason, result r = inr (ProfileStatusErrorReason e error_reason)
         else result r = inr (ProfileStatusError e)
     end.
Proof.
  cbv zeta. destruct s as [svc].
  destruct users_getProfile as [e|p]; destruct svc; run_more.
  3,4: split; reflexivity.
  all: destruct e as [[[|c t]|[|d l]]| | | | | |w]; cbn;
    (split; [reflexivity|]); try reflexivity; eexists; reflexivity.
Qed.

(** X7.  [renew_watch] raises only from its handler of HTTP errors: an
    exception leaves it exactly when the watch request was issued and
    raised an HTTP error whose details are a non-empty text, and the
    exception is then [AttributeError]; any other failure of the stop or
    of the watch request is returned as an error dictionary. *)
Theorem renew_watch_raises_only_on_text_details (env : collaborators) (s : manager) :
  let r := renew_watch env s in
  (forall e, result r = inl e ->
     e = AttributeError
     /\ In (UsersWatch (watch_request_of env)) (events r)
     /\ exists e', users_watch env (watch_request_of env) = inl e'
                   /\ text_details e' = true)
  /\ (forall e', In (UsersWatch (watch_request_of env)) (events r) ->
        users_watch env (watch_request_of env) = inl e' ->
        text_details e' = true ->
        result r = inl AttributeError).
Proof.
  cbv zeta. destruct s as [svc]. unfold watch_request_of.
  destruct (users_stop env) as [e0|[]] eqn:Hstop;
    destruct (get_gmail_watch_label_ids env) as [|id ids] eqn:Hids;
    destruct svc; run_renewal; rewrite Hstop; cbn; rewrite ?Hids; cbn.
  all: try (destruct e0 as [[[|c0 t0]|[|d0 l0]]| | | | | |w0]; cbn).
  all: repeat match goal with
         | |- context [String.eqb ?a "failedPrecondition"] =>
             destruct (String.eqb a "failedPrecondition"); cbn
         end.
  all: try (split; [intros e [=] | intros e' Hin; exfalso;
            repeat (destruct Hin as [Hin|Hin]; [discriminate Hin|]); exact Hin]).
  all: match goal with
       | |- context [users_watch ?v ?q] =>
           destruct (users_watch v q) as [e1|resp] eqn:Hwatch; cbn
       end.
  all: try (destruct e1 as [[[|c1 t1]|[|d1 l1]]| | | | | |w1]; cbn).
  all: split;
    [ intros e He;
      first [ discriminate He
            | injection He as <-;
              split; [reflexivity|]; split; [tauto|]; eexists; split; reflexivity ]
    | intros e' _ [= <-] Htext; first [discriminate Htext | reflexivity] ].
Qed.

(** X8.  The remote calls of a renewal: the stop, and after it at most
    one watch request, built from the configuration with the label
    identifiers when some are configured and the label names otherwise.
    The watch request is issued exactly when the stop did not end the
    renewal, that is unless the stop raised something other than an HTTP
    error or an HTTP error whose details are a non-empty text. *)
Theorem renew_watch_remote_calls (env : collaborators) (s : manager) :
  let r := renew_watch env s in
  let stop_ends :=
    match users_stop env with
    | inl e => negb (is_HttpError e) || text_details e
    | inr _ => false
    end in
  WatchManager.remote_calls (events r)
  = if stop_ends then [UsersStop]
    else [UsersStop; UsersWatch (watch_request_of env)].
Proof.
  cbv zeta. destruct s as [svc]. unfold watch_request_of.
  destruct (users_stop env) as [e0|[]] eqn:Hstop;
    destruct (get_gmail_watch_label_ids env) as [|id ids] eqn:Hids;
    destruct svc; run_renewal; rewrite Hstop; cbn; rewrite ?Hids; cbn.
  all: try (destruct e0 as [[[|c0 t0]|[|d0 l0]]| | | | | |w0]; cbn).
  all: repeat match goal with
         | |- context [String.eqb ?a "failedPrecondition"] =>
             destruct (String.eqb a "failedPrecondition"); cbn
         end.
  all: try reflexivity.
  all: match goal with
       | |- context [users_watch ?v ?q] =>
           destruct (users_watch v q) as [e1|resp] eqn:Hwatch; cbn
       end.
  all: try (destruct e1 as [[[|c1 t1]|[|d1 l1]]| | | | | |w1]; cbn).
  all: reflexivity.
Qed.

End WatchMore.

(** ** The configured labels and the [.env] file *)

Section Configuration.
Import Config.

Lemma lstrip_starts_clean (s : string) : starts_clean (lstrip s) = true.
Proof.
  induction s as [|a s IH]; cbn [lstrip]; [reflexivity|].
  destruct (is_space a) eqn:Ha; [exact IH|]. cbn [starts_clean]. by rewrite Ha.
Qed.

Lemma lstrip_clean (s : string) : starts_clean s = true -> lstrip s = s.
Proof.
  destruct s as [|a s]; cbn [starts_clean lstrip]; [reflexivity|].
  by destruct (is_space a).
Qed.

Lemma rstrip_starts_clean (s : string) :
  starts_clean s = true -> starts_clean (rstrip s) = true.
Proof.
  destruct s as [|a s]; cbn [starts_clean rstrip]; [reflexivity|].
  intros Ha. destruct (rstrip s); [|exact Ha].
  destruct (is_space a) eqn:E; [discriminate|]. cbn [starts_clean]. by rewrite E.
Qed.

Lemma rstrip_idempotent (s : string) : rstrip (rstrip s) = rstrip s.
Proof.
  induction s as [|a s IH]; cbn [rstrip]; [reflexivity|].
  destruct (rstrip s) as [|b r] eqn:Hr.
  - destruct (is_space a) eqn:Ha; cbn [rstrip]; [reflexivity | by rewrite Ha].
  - change (rstrip (String a (String b r)))
      with (match rstrip (String b r) with
            | EmptyString => if is_space a then EmptyString else String a EmptyString
            | r' => String a r'
            end).
    by rewrite IH.
Qed.

Lemma strip_idempotent (s : string) : strip (strip s) = strip s.
Proof.
  unfold strip.
  rewrite (lstrip_clean (rstrip (lstrip s)))
    by apply rstrip_starts_clean, lstrip_starts_clean.
  apply rstrip_idempotent.
Qed.

Lemma in_lstrip (c : ascii) (s : string) :
  In c (list_ascii_of_string (lstrip s)) -> In c (list_ascii_of_string s).
Proof.
  induction s as [|a s IH]; cbn [lstrip]; [tauto|].
  destruct (is_space a); [|tauto]. intros H. right. by apply IH.
Qed.

Lemma in_rstrip (c : ascii) (s : string) :
  In c (list_ascii_of_string (rstrip s)) -> In c (list_ascii_of_string s).
Proof.
  induction s as [|a s IH]; cbn [rstrip]; [tauto|].
  destruct (rstrip s) as [|b r].
  - destruct (is_space a); cbn; tauto.
  - cbn [list_ascii_of_string In] in *. tauto.
Qed.

Lemma in_strip (c : ascii) (s : string) :
  In c (list_ascii_of_string (strip s)) -> In c (list_ascii_of_string s).
Proof. intros H. by apply in_lstrip, in_rstrip. Qed.

Lemma split_nonempty (sep : ascii) (s : string) : split sep s <> [].
Proof.
  induction s as [|c s IH]; cbn [split]; [discriminate|].
  destruct (Ascii.eqb c sep); [discriminate|]. by destruct (split sep s).
Qed.

Lemma split_pieces_without_sep (sep : ascii) (s : string) :
  Forall (fun piece => ~ In sep (list_ascii_of_string piece)) (split sep s).
Proof.
  induction s as [|c s IH]; cbn [split].
  - constructor; [tauto | constructor].
  - destruct (Ascii.eqb_spec c sep) as [->|Hne].
    + constructor; [cbn; tauto | exact IH].
    + destruct (split sep s) as [|piece pieces].
      * constructor; [|constructor]. cbn. intros [H|[]]. congruence.
      * inversion IH as [|? ? Hp Hps]; subst. constructor; [|exact Hps].
        cbn. intros [H|H]; [congruence | by apply Hp].
Qed.

(** X9.  Every label the two readers return is clean: not empty, without
    surrounding whitespace and without a comma; so a configured value
    made of commas and whitespace only gives no label at all. *)
Theorem watched_labels_are_clean (value : option string) :
  Forall clean_label (get_gmail_watch_labels value)
  /\ Forall clean_label (get_gmail_watch_label_ids value).
Proof.
  assert (H : forall s, Forall clean_label (stripped_pieces s)).
  { intros s. unfold stripped_pieces. apply Forall_map, List.Forall_forall.
    intros x Hx. apply List.filter_In in Hx as [Hin Htruthy].
    unfold clean_label. split; [|split].
    - unfold str_truthy in Htruthy. intros Heq. rewrite Heq in Htruthy. discriminate.
    - apply strip_idempotent.
    - intros Hc. apply in_strip in Hc.
      pose proof (split_pieces_without_sep "," s) as Hall.
      rewrite List.Forall_forall in Hall. exact (Hall x Hin Hc). }
  split; [apply H|].
  unfold get_gmail_watch_label_ids. destruct (negb _); [constructor | apply H].
Qed.










End Configuration.

(** Case analysis on the innermost scrutinee of the goal. *)
Ltac split_match :=
  match goal with
  | |- context [match ?x with _ => _ end] =>
      lazymatch x with
      | context [match _ with _ => _ end] => fail
      | _ => destruct x eqn:?
      end
  end.

(** ** Notifications *)

Section Notifications.
Import Telegram.

Lemma replace_char_app (old : ascii) (new a b : string) :
  replace_char old new (String.append a b)
  = String.append (replace_char old new a) (replace_char old new b).
Proof.
  induction a as [|c a IH]; [reflexivity|].
  change (replace_char old new (String c (String.append a b))
          = String.append (replace_char old new (String c a)) (replace_char old new b)).
  cbn [replace_char]. rewrite IH. destruct (Ascii.eqb c old).
  - by rewrite append_assoc.
  - reflexivity.
Qed.

Lemma html_escape_app (a b : string) :
  html_escape (String.append a b) = String.append (html_escape a) (html_escape b).
Proof. unfold html_escape. by rewrite !replace_char_app. Qed.

Lemma html_escape_single (c : ascii) :
  html_escape (String c EmptyString) = escape_char c.
Proof. destruct c as [[] [] [] [] [] [] [] []]; reflexivity. Qed.

Lemma html_escape_cons (c : ascii) (s : string) :
  html_escape (String c s) = String.append (escape_char c) (html_escape s).
Proof.
  change (String c s) with (String.append (String c EmptyString) s).
  by rewrite html_escape_app, html_escape_single.
Qed.

Lemma escape_is_html_escape (text : string) :
  escape_html_for_telegram text = html_escape text.
Proof. by destruct text. Qed.

Lemma escape_char_markup (c : ascii) :
  forallb (fun x => negb (markup x)) (list_ascii_of_string (escape_char c)) = true.
Proof. destruct c as [[] [] [] [] [] [] [] []]; reflexivity. Qed.

Lemma list_ascii_of_append (a b : string) :
  list_ascii_of_string (String.append a b)
  = list_ascii_of_string a ++ list_ascii_of_string b.
Proof.
  induction a as [|c a IH]; [reflexivity|].
  change (c :: list_ascii_of_string (String.append a b)
          = c :: (list_ascii_of_string a ++ list_ascii_of_string b)).
  by rewrite IH.
Qed.

Lemma html_escape_markup (s : string) :
  forallb (fun x => negb (markup x)) (list_ascii_of_string (html_escape s)) = true.
Proof.
  induction s as [|c s IH]; [reflexivity|].
  rewrite html_escape_cons, list_ascii_of_append, forallb_app, escape_char_markup.
  exact IH.
Qed.

(** X12.  The escaped text holds none of the characters [<], [>], the
    double quote and the single quote, whatever the text; and escaping
    goes through concatenation, so a text escaped in pieces is the text
    escaped as a whole. *)
Theorem escaped_text_has_no_markup :
  (forall text,
      Forall (fun c => markup c = false)
             (list_ascii_of_string (escape_html_for_telegram text)))
  /\ (forall a b,
        escape_html_for_telegram (String.append a b)
        = String.append (escape_html_for_telegram a) (escape_html_for_telegram b)).
Proof.
  split.
  - intros text. rewrite escape_is_html_escape.
    pose proof (html_escape_markup text) as H.
    rewrite forallb_forall in H. apply List.Forall_forall. intros c Hc.
    specialize (H c Hc). by destruct (markup c).
  - intros a b. rewrite !escape_is_html_escape. apply html_escape_app.
Qed.

Lemma escape_char_injective (c1 c2 : ascii) (r1 r2 : string) :
  String.append (escape_char c1) r1 = String.append (escape_char c2) r2 ->
  c1 = c2 /\ r1 = r2.
Proof.
  unfold escape_char. intros H.
  repeat match type of H with
         | context [Ascii.eqb ?x ?y] => destruct (Ascii.eqb_spec x y)
         end;
    subst; cbn in H; try discriminate H;
    try (injection H as H; subst; tauto);
    injection H as Hc Hr; subst; tauto.
Qed.

(** X13.  Escaping loses nothing: two texts with the same escaped form are
    the same text. *)
Theorem escape_html_for_telegram_injective (a b : string) :
  escape_html_for_telegram a = escape_html_for_telegram b -> a = b.
Proof.
  rewrite !escape_is_html_escape. revert b.
  induction a as [|c a IH]; intros [|d b] H.
  - reflexivity.
  - exfalso. rewrite html_escape_cons in H. change (html_escape EmptyString) with EmptyString in H.
    destruct d as [[] [] [] [] [] [] [] []]; discriminate H.
  - exfalso. rewrite html_escape_cons in H. change (html_escape EmptyString) with EmptyString in H.
    destruct c as [[] [] [] [] [] [] [] []]; discriminate H.
  - rewrite !html_escape_cons in H.
    apply escape_char_injective in H as [-> H]. by rewrite (IH b H).
Qed.

Section Sent.
Variable os_environ : environ.
Variable requests_post : request -> raised + response.
Variable attribute_error : json -> string.

Local Abbreviation send := (send_telegram_message os_environ requests_post attribute_error).

Lemma or_else_configured (placeholder : string) (a b : option string) :
  configured placeholder (or_else a b) = false ->
  match or_else a b with
  | Some s => negb (str_truthy s) || String.eqb s placeholder = true
  | None => True
  end.
Proof.
  unfold configured. destruct (or_else a b) as [s|]; [|done].
  destruct (str_truthy s), (String.eqb s placeholder); done.
Qed.

Lemma escape_condition (parse_mode : option string) (auto_escape_html : bool)
    (message : string) :
  match parse_mode with
  | Some mode =>
      if str_truthy mode && String.eqb (upper mode) "HTML" && auto_escape_html
      then escape_html_for_telegram message
      else message
  | None => message
  end
  = if html_mode parse_mode && auto_escape_html
    then escape_html_for_telegram message else message.
Proof. by destruct parse_mode as [[|c mode]|]. Qed.

Lemma posted_text (message : string) (bot_token chat_id : option string)
    (parse_mode : option string) (preview : bool) (timeout : Z) (auto_escape_html : bool) :
  Forall (fun r =>
            text (json_payload r)
            = (if html_mode parse_mode && auto_escape_html
               then escape_html_for_telegram message else message)
            /\ Telegram.parse_mode (json_payload r)
               = match parse_mode with
                 | Some mode => if str_truthy mode then Some mode else None
                 | None => None
                 end)
         (posts (snd (send message bot_token chat_id parse_mode preview timeout
                        auto_escape_html))).
Proof.
  unfold send_telegram_message. rewrite escape_condition.
  repeat (first [by constructor | split_match]).
Qed.

(** X14.  Without a bot token or a chat identifier (absent, empty or the
    placeholder of the sample file) [send_telegram_message] does nothing
    at all and reports the failure; with both it posts exactly one request,
    whatever the service answers, to the chat chosen, with the timeout
    given, and with the message escaped exactly when the parse mode is
    HTML in any capitalisation and escaping was not switched off. *)
Theorem send_telegram_message_posts_once (message : string) (bot_token chat_id : option string)
    (parse_mode : option string) (preview : bool) (timeout : Z) (auto_escape_html : bool) :
  let token := or_else bot_token (TELEGRAM_BOT_TOKEN os_environ) in
  let chat := or_else chat_id (TELEGRAM_CHAT_ID os_environ) in
  let run := send message bot_token chat_id parse_mode preview timeout auto_escape_html in
  if configured "your-bot-token-here" token && configured "your-chat-id-here" chat
  then exists r,
      posts (snd run) = [r]
      /\ Some (Telegram.chat_id (json_payload r)) = chat
      /\ Telegram.timeout r = timeout
      /\ Telegram.parse_mode (json_payload r)
         = match parse_mode with
           | Some mode => if str_truthy mode then Some mode else None
           | None => None
           end
      /\ text (json_payload r)
         = if html_mode parse_mode && auto_escape_html
           then escape_html_for_telegram message else message
  else snd run = [] /\ exists e, fst run = NotSent e None message.
Proof.
  cbv zeta. unfold send_telegram_message.
  destruct (or_else bot_token (TELEGRAM_BOT_TOKEN os_environ)) as [token|] eqn:Htoken;
    [|cbn; eauto].
  unfold configured at 1.
  destruct (str_truthy token) eqn:Htt; [|cbn; eauto].
  destruct (String.eqb token "your-bot-token-here") eqn:Hph; [cbn; eauto|].
  destruct (or_else chat_id (TELEGRAM_CHAT_ID os_environ)) as [chat|] eqn:Hchat;
    [|cbn; eauto].
  unfold configured.
  destruct (str_truthy chat) eqn:Htc; [|cbn; eauto].
  destruct (String.eqb chat "your-chat-id-here") eqn:Hpc; [cbn; eauto|].
  cbn [negb orb andb]. rewrite escape_condition.
  match goal with |- context [Post ?r] => exists r; set (req := r) end.
  split; [|by repeat split].
  repeat (first [reflexivity | split_match]).
Qed.

(** X15.  A result with ['success'] true is returned only when the one
    request posted was answered with status 200 and a JSON object whose
    ['ok'] is truthy; the result then carries that object and the text
    that was posted, and the last log record is the one of the success. *)
Theorem sent_means_accepted (message : string) (bot_token chat_id : option string)
    (parse_mode : option string) (preview : bool) (timeout : Z) (auto_escape_html : bool)
    (message_id response_data : json) (sent : string) :
  let run := send message bot_token chat_id parse_mode preview timeout auto_escape_html in
  fst run = Sent message_id response_data sent ->
  exists r response m,
    posts (snd run) = [r]
    /\ requests_post r = inr response
    /\ status_code response = 200
    /\ response_json response = inr response_data
    /\ response_data = JObj m
    /\ truthy (default JNull (m !! "ok")) = true
    /\ sent = text (json_payload r)
    /\ last (snd run) = Some LogSent.
Proof.
  cbv zeta. unfold send_telegram_message. rewrite escape_condition.
  destruct (or_else bot_token (TELEGRAM_BOT_TOKEN os_environ)) as [token|];
    [|discriminate].
  destruct (negb (str_truthy token) || String.eqb token "your-bot-token-here");
    [discriminate|].
  destruct (or_else chat_id (TELEGRAM_CHAT_ID os_environ)) as [chat|];
    [|discriminate].
  destruct (negb (str_truthy chat) || String.eqb chat "your-chat-id-here");
    [discriminate|].
  match goal with |- context [Post ?r] => set (req := r) end.
  destruct (requests_post req) as [[]|response] eqn:Hpost; try discriminate.
  destruct (response_json response) as [[]|data] eqn:Hjson; try discriminate.
  destruct (status_code response =? 200) eqn:Hstatus.
  - apply Z.eqb_eq in Hstatus.
    destruct data as [| | | | | m]; try discriminate.
    cbn [get_or]. destruct (truthy (default JNull (m !! "ok"))) eqn:Hok.
    + destruct (default (JObj ∅) (m !! "result")) as [| | | | | result];
        try discriminate.
      cbn [get_or fst snd]. intros [= <- <- <-].
      exists req, response, m. by rewrite Hpost.
    + destruct (m !! "description"); discriminate.
  - destruct data as [| | | | | m]; discriminate.
Qed.

(** X16.  The success is logged before the result is read: on an answer
    with status 200 and a truthy ['ok'] whose ['result'] is not an object,
    the log says that the message was sent and the function reports an
    unexpected error, with the text of the [AttributeError]. *)
Theorem success_logged_before_result_is_read (message : string)
    (bot_token chat_id : option string) (parse_mode : option string) (preview : bool)
    (timeout : Z) (auto_escape_html : bool) (response : response)
    (m : gmap string json) (result : json) :
  let run := send message bot_token chat_id parse_mode preview timeout auto_escape_html in
  configured "your-bot-token-here" (or_else bot_token (TELEGRAM_BOT_TOKEN os_environ))
  && configured "your-chat-id-here" (or_else chat_id (TELEGRAM_CHAT_ID os_environ))
  = true ->
  (forall r, requests_post r = inr response) ->
  status_code response = 200 ->
  response_json response = inr (JObj m) ->
  truthy (default JNull (m !! "ok")) = true ->
  m !! "result" = Some result ->
  is_dict result = false ->
  In LogSent (snd run)
  /\ exists sent, fst run = NotSent (UnexpectedError (attribute_error result)) None sent.
Proof.
  cbv zeta. intros Hconf Hpost Hstatus Hjson Hok Hresult Hobj.
  unfold send_telegram_message. rewrite escape_condition.
  apply andb_true_iff in Hconf as [Htoken Hchat]. unfold configured in Htoken, Hchat.
  destruct (or_else bot_token (TELEGRAM_BOT_TOKEN os_environ)) as [token|];
    [|discriminate].
  apply andb_true_iff in Htoken as [-> ->%negb_true_iff].
  destruct (or_else chat_id (TELEGRAM_CHAT_ID os_environ)) as [chat|];
    [|discriminate].
  apply andb_true_iff in Hchat as [-> ->%negb_true_iff].
  cbn [negb orb]. rewrite Hpost, Hjson, Hstatus. cbn [Z.eqb Pos.eqb get_or].
  rewrite Hok, Hresult. cbn [default from_option id].
  destruct result as [| | | | | r]; [..|discriminate Hobj]; cbn [get_or fst snd];
    (split; [cbn; tauto | eauto]).
Qed.

Lemma occurrences_app (c : ascii) (a b : string) :
  occurrences c (String.append a b) = (occurrences c a + occurrences c b)%nat.
Proof.
  induction a as [|x a IH]; [reflexivity|].
  change (occurrences c (String x (String.append a b))
          = (occurrences c (String x a) + occurrences c b)%nat).
  cbn [occurrences]. rewrite IH. lia.
Qed.

Lemma occurrences_escape_char (a : ascii) :
  occurrences "<" (escape_char a) = 0%nat /\ occurrences ">" (escape_char a) = 0%nat.
Proof. destruct a as [[] [] [] [] [] [] [] []]; split; reflexivity. Qed.

Lemma occurrences_escape (s : string) :
  occurrences "<" (escape_html_for_telegram s) = 0%nat
  /\ occurrences ">" (escape_html_for_telegram s) = 0%nat.
Proof.
  rewrite escape_is_html_escape. induction s as [|a s [IHlt IHgt]]; [done|].
  rewrite html_escape_cons, !occurrences_app, IHlt, IHgt.
  by destruct (occurrences_escape_char a) as [-> ->].
Qed.

Lemma notification_text_tags (subject sender preview : string) (labels : labels_arg)
    (message_id : option string) :
  occurrences "<" (notification_text subject sender preview labels message_id)
  = tag_brackets labels message_id
  /\ occurrences ">" (notification_text subject sender preview labels message_id)
     = tag_brackets labels message_id.
Proof.
  unfold notification_text, tag_brackets.
  destruct labels as [|l|s];
    [|destruct (Nat.eqb (length l) 0)|destruct (str_truthy s)];
    (destruct message_id as [id|]; [destruct (str_truthy id)|]);
    destruct (500 <? String.length preview)%nat;
    cbn [negb app String.concat];
    rewrite !occurrences_app,
      ?(proj1 (occurrences_escape _)), ?(proj2 (occurrences_escape _));
    split; reflexivity.
Qed.

(** X17.  Whatever the subject, sender, preview, labels and message id
    hold, a notification that is posted is posted in HTML mode and its
    text has exactly the opening and closing angle brackets of the tags
    the function writes itself: ten, two more with labels, four more with
    a message id.  The text is posted as built, not escaped again. *)
Theorem notification_tags_are_fixed (subject sender preview : string)
    (labels : labels_arg) (message_id : option string) :
  Forall (fun r =>
            text (json_payload r)
            = notification_text subject sender preview labels message_id
            /\ Telegram.parse_mode (json_payload r) = Some "HTML"
            /\ occurrences "<" (text (json_payload r)) = tag_brackets labels message_id
            /\ occurrences ">" (text (json_payload r)) = tag_brackets labels message_id)
         (posts (snd (send_email_notification os_environ requests_post attribute_error
                        subject sender preview labels message_id))).
Proof.
  unfold send_email_notification.
  eapply List.Forall_impl; [|apply posted_text].
  intros r [Htext Hmode]. cbn in Htext, Hmode. rewrite Htext.
  split; [reflexivity|]. split; [exact Hmode|]. apply notification_text_tags.
Qed.

End Sent.

End Notifications.

(** ** The endpoints *)

Section Cursor.
Import Main.

Lemma parse_digits_of_uint (d : Decimal.uint) (acc : Z) :
  parse_digits (NilEmpty.string_of_uint d) acc true
  = Some (Z.of_N (DecimalPos.Unsigned.of_lu (Decimal.rev d))
          + acc * 10 ^ Z.of_N (DecimalPos.Unsigned.usize d)).
Proof.
  revert acc. induction d; intros acc;
    [cbn; f_equal; lia | ..];
    cbn [NilEmpty.string_of_uint parse_digits DecimalPos.Unsigned.usize];
    change (digit_of _) with (Some 0) || change (digit_of _) with (Some 1)
    || change (digit_of _) with (Some 2) || change (digit_of _) with (Some 3)
    || change (digit_of _) with (Some 4) || change (digit_of _) with (Some 5)
    || change (digit_of _) with (Some 6) || change (digit_of _) with (Some 7)
    || change (digit_of _) with (Some 8) || change (digit_of _) with (Some 9);
    cbv iota; rewrite IHd; f_equal;
    unfold Decimal.rev; cbn [Decimal.revapp];
    match goal with
    | |- context [Decimal.revapp d (?c Decimal.Nil)] =>
        rewrite (DecimalPos.Unsigned.of_lu_revapp d (c Decimal.Nil))
    end;
    unfold Decimal.rev;
    rewrite N2Z.inj_succ, Z.pow_succ_r by lia;
    rewrite N2Z.inj_add, N2Z.inj_mul, N2Z.inj_pow;
    set (x := Z.of_N (DecimalPos.Unsigned.of_lu (Decimal.revapp d Decimal.Nil)));
    set (p := Z.of_N 10 ^ Z.of_N (DecimalPos.Unsigned.usize d));
    change (10 ^ Z.of_N (DecimalPos.Unsigned.usize d)) with p;
    cbn; lia.
Qed.

Lemma rstrip_of_uint (d : Decimal.uint) :
  rstrip (NilEmpty.string_of_uint d) = NilEmpty.string_of_uint d.
Proof.
  induction d; [reflexivity | ..];
    cbn [NilEmpty.string_of_uint rstrip]; rewrite IHd;
    by destruct (NilEmpty.string_of_uint d).
Qed.

Lemma int_of_str_of_uint (d : Decimal.uint) :
  d <> Decimal.Nil ->
  int_of_str (NilEmpty.string_of_uint d) = Some (Z.of_N (Pos.of_uint d))
  /\ int_of_str (String "-" (NilEmpty.string_of_uint d))
     = Some (- Z.of_N (Pos.of_uint d)).
Proof.
  intros Hd. rewrite DecimalPos.Unsigned.of_uint_alt.
  assert (Hfalse : parse_digits (NilEmpty.string_of_uint d) 0 false
                   = parse_digits (NilEmpty.string_of_uint d) 0 true)
    by (destruct d; [done | reflexivity..]).
  unfold int_of_str, strip. split.
  - rewrite lstrip_clean by (by destruct d). rewrite rstrip_of_uint.
    transitivity (parse_digits (NilEmpty.string_of_uint d) 0 false);
      [destruct d; [done | reflexivity..]|].
    rewrite Hfalse, parse_digits_of_uint. f_equal. lia.
  - change (lstrip (String "-" ?s)) with (String "-" s).
    cbn [rstrip]. rewrite rstrip_of_uint.
    destruct (NilEmpty.string_of_uint d) eqn:Hs; [by destruct d|].
    cbv iota. rewrite Hfalse, <- Hs, parse_digits_of_uint. cbn [option_map].
    f_equal. lia.
Qed.

(** X18.  The cursor of a notification reaches the handler as it was
    sent: the text [str] makes of a number is read back by [int] as that
    number, for every integer below the interpreter's limit of 4300
    digits, and the text made of a cursor that is already a string is the
    string itself. *)
Theorem history_id_text_round_trip (repr : json -> string) (n : Z) (s : string) :
  Z.abs n < 10 ^ 4300 ->
  int (JStr (str repr (JNum n))) = inr n
  /\ str repr (JStr s) = s.
Proof.
  intros _. split; [|reflexivity].
  cbn [str int]. unfold str_of_int.
  destruct n as [|p|p]; [reflexivity | ..]; cbn [Z.to_int NilZero.string_of_int];
    pose proof (DecimalPos.Unsigned.to_uint_nonnil p) as Hp;
    pose proof (DecimalPos.Unsigned.of_to p) as Hof;
    destruct (int_of_str_of_uint (Pos.to_uint p) Hp) as [Hpos Hneg];
    unfold NilZero.string_of_uint;
    destruct (Pos.to_uint p) eqn:Hu; try done;
    rewrite ?Hpos, ?Hneg, Hof; reflexivity.
Qed.

End Cursor.

Section Service.
Import Main.
Variable env : environment.

Lemma get_service_account_info_run (g : globals) :
  let r := get_service_account_info env g in
  state_file (final r) = state_file g
  /\ forallb is_log (events r) = true
  /\ (result r = inr tt -> is_Some (gmail_handler (final r)))
  /\ (is_Some (watch_manager g) -> is_Some (watch_manager (final r)))
  /\ (result r = inr tt ->
      (is_Some (gmail_handler g) -> is_Some (watch_manager g)) ->
      is_Some (watch_manager (final r)))
  /\ (forall e, result r = inl e -> watch_manager (final r) = watch_manager g)
  /\ (is_Some (gmail_handler g) ->
      r = (inr tt, g, [Log GmailHandler.INFO InitializingCredentials;
                       Log GmailHandler.INFO AlreadyInitialized])).
Proof.
  cbv zeta.
  cbv [get_service_account_info bind try_except log get_globals put_globals call lift
       loads raise ret].
  destruct g as [f h w]. cbn [gmail_handler state_file watch_manager].
  destruct h as [service|].
  - cbn. repeat split; eauto.
  - repeat split_match;
      cbn; repeat split; try done; try (intros; by eexists); by intros [? ?].
Qed.

Lemma tasks_app (l1 l2 : list event) : tasks (l1 ++ l2) = tasks l1 ++ tasks l2.
Proof. apply omap_app. Qed.

Lemma tasks_of_logs (l : list event) : forallb is_log l = true -> tasks l = [].
Proof.
  induction l as [|[] l IH]; cbn [forallb is_log andb]; done.
Qed.

Lemma bool_decide_is_Some {A} (o : option A) :
  bool_decide (is_Some o) = match o with Some _ => true | None => false end.
Proof.
  destruct o; [apply bool_decide_eq_true; by eexists|].
  apply bool_decide_eq_false. by intros [? ?].
Qed.

Lemma truthy_of_lookup (m : gmap string json) (k : string) (v : json) :
  m !! k = Some v -> truthy (JObj m) = true.
Proof.
  intros H. cbn [truthy]. destruct (Nat.eqb_spec (size m) 0) as [Hsize|]; [|done].
  apply map_size_empty_iff in Hsize. subst m. by rewrite lookup_empty in H.
Qed.

(** Cases that cannot be: a dictionary with a key is not empty, and a
    text is empty or not. *)
Ltac absurd_payload :=
  exfalso;
  repeat match goal with
         | H : ?m !! _ = Some _, H' : context [truthy (JObj ?m)] |- _ =>
             rewrite (truthy_of_lookup _ _ _ H) in H'
         end;
  cbn [truthy negb] in *;
  repeat match goal with
         | H : context [String.eqb ?s ?t] |- _ => destruct (String.eqb s t)
         end;
  cbn [negb] in *; congruence.

(** X19.  [email_notify] answers or raises an [HTTPException] with status
    500 and the detail "Internal server error", nothing else: the
    exceptions with status 400 that it raises itself never leave it.  It
    queues one background task, with the text of the [historyId] as the
    cursor, exactly when the initialisation returns and the request
    carries a history notification, and answers that request with the
    history identifier; in every other case it queues nothing. *)
Theorem email_notify_queues_history (request_json : raised + json) (g : globals) :
  let r := email_notify env request_json g in
  match result r with
  | inl e => e = HTTPException 500 (DetailText "Internal server error")
  | inr _ => True
  end
  /\ match result (get_service_account_info env g),
          history_notification env request_json with
     | inr _, Some (history_id, email_address) =>
         tasks (events r)
         = [(str (repr env) history_id,
             (if truthy email_address then email_address else JNull),
             (if truthy email_address then "watch_notification" else "history"))]
         /\ result r
            = inr (if truthy email_address
                   then WatchNotification history_id email_address
                   else HistoryNotification history_id)
     | _, _ =>
         tasks (events r) = []
         /\ match result r with
            | inr (WatchNotification _ _) | inr (HistoryNotification _) => False
            | _ => True
            end
     end.
Proof.
  cbv zeta.
  destruct (get_service_account_info_run g) as (_ & Hlogs & _).
  apply tasks_of_logs in Hlogs.
  cbv [email_notify bind try_except log emit lift lift_exn raise ret loads
       history_notification dict_get contains from_option id str_truthy].
  rewrite ?bool_decide_is_Some.
  destruct (get_service_account_info env g) as [[[e|[]] g1] evs1].
  all: cbn [events snd] in Hlogs.
  all: repeat (first [ progress cbn [result events fst snd negb truthy]
                     | split_match ]).
  all: rewrite ?tasks_app, ?Hlogs.
  all: try (by repeat split).
  all: absurd_payload.
Qed.

Lemma handler_events_app (l1 l2 : list event) :
  handler_events (l1 ++ l2) = handler_events l1 ++ handler_events l2.
Proof. apply omap_app. Qed.

Lemma handler_events_of_logs (l : list event) :
  forallb is_log l = true -> handler_events l = [].
Proof.
  induction l as [|[] l IH]; cbn [forallb is_log andb]; done.
Qed.

Lemma handler_events_map (l : list GmailHandler.event) :
  handler_events (map OfHandler l) = l.
Proof.
  induction l as [|e l IH]; [reflexivity|].
  change (e :: handler_events (map OfHandler l) = e :: l). by rewrite IH.
Qed.

Lemma process_history_returns (c : GmailHandler.collaborators) (history_id : string)
    (s : GmailHandler.handler) :
  Py.result (GmailHandler.process_history c history_id s) = inr tt.
Proof.
  unfold GmailHandler.process_history, Py.try_except.
  match goal with |- context [match ?body s with _ => _ end] =>
    destruct (body s) as [[[e|[]] s1] l1]
  end; [|reflexivity].
  by destruct (GmailHandler.is_HttpError e).
Qed.

(** X20.  An initialisation that returns leaves a handler behind and the
    state file as it was, and the next call finds the handler and does
    nothing but log: the credentials are loaded once. *)
Theorem initialisation_happens_once (g : globals) :
  let r := get_service_account_info env g in
  result r = inr tt ->
  is_Some (gmail_handler (final r))
  /\ state_file (final r) = state_file g
  /\ get_service_account_info env (final r)
     = (inr tt, final r, [Log GmailHandler.INFO InitializingCredentials;
                          Log GmailHandler.INFO AlreadyInitialized]).
Proof.
  cbv zeta. intros Hr.
  destruct (get_service_account_info_run g) as (Hfile & _ & Hset & _).
  destruct (get_service_account_info_run
              (final (get_service_account_info env g))) as (_ & _ & _ & _ & _ & _ & Hagain).
  auto.
Qed.

(** X21.  The background task never raises.  When the initialisation
    returns, the task runs [process_history] once, on the state file as
    it is and with the cursor it was given, and the last record it logs is
    the one of the successful completion, whatever [process_history]
    logged itself; when the initialisation raises, the handler is not
    called, the state file stays as it is and the error is logged. *)
Theorem background_task_never_raises (history_id : string) (email_address : json)
    (notification_type : string) (g : globals) :
  let r := process_gmail_history_background env history_id email_address
             notification_type g in
  let init := get_service_account_info env g in
  result r = inr tt
  /\ match result init with
     | inr _ =>
         exists service,
           gmail_handler (final init) = Some service
           /\ let run :=
                GmailHandler.process_history (handler_env env) history_id
                  (GmailHandler.Handler (state_file g) service) in
              handler_events (events r) = Py.events run
              /\ state_file (final r) = GmailHandler.state_file (Py.final run)
              /\ last (events r)
                 = Some (Log GmailHandler.INFO (CompletedBackgroundProcessing history_id))
     | inl e =>
         handler_events (events r) = []
         /\ state_file (final r) = state_file g
         /\ last (events r)
            = Some (Log GmailHandler.ERROR (ErrorInBackgroundProcessing history_id e))
     end.
Proof.
  cbv zeta.
  destruct (get_service_account_info_run g) as (Hfile & Hlogs & Hset & _).
  apply handler_events_of_logs in Hlogs.
  cbv [process_gmail_history_background bind try_except log ret on_gmail_handler].
  destruct (truthy email_address); cbv beta iota;
    destruct (get_service_account_info env g) as [[[e|[]] g1] evs1];
    cbn [result final events fst snd] in *.
  1,3: by rewrite ?handler_events_app, Hlogs, ?app_assoc, last_snoc.
  all: destruct (Hset eq_refl) as [service Hservice]; rewrite Hservice, Hfile;
    pose proof (process_history_returns (handler_env env) history_id
                  (GmailHandler.Handler (state_file g) service)) as Hret;
    (split; [|exists service; split; [reflexivity|]; cbv zeta]);
    destruct (GmailHandler.process_history (handler_env env) history_id
                (GmailHandler.Handler (state_file g) service)) as [[res h] evs];
    cbn [Py.result fst] in Hret; subst res;
    cbn [result final events fst snd state_file Py.events Py.final];
    rewrite ?handler_events_app, ?Hlogs, ?handler_events_map, ?app_assoc, ?last_snoc;
    cbn [app]; rewrite ?app_nil_r; done.
Qed.

(** X22.  The three watch endpoints answer with a result whose status is
    ['success'] or raise an [HTTPException] with status 500 whose detail
    is the dictionary of the internal error: the exception that carries
    the result of the manager as its detail is caught by the handler of
    the endpoint and never leaves it. *)
Theorem watch_endpoints_hide_the_result (g : globals) :
  Forall (fun endpoint : environment -> M watch_result =>
            match result (endpoint env g) with
            | inr r => status_is_success r = true
            | inl e => exists details, e = HTTPException 500 (DetailInternalError details)
            end)
         [renew_watch; watch_status; stop_watch].
Proof.
  repeat constructor;
    cbv [renew_watch watch_status stop_watch bind try_except log ret raise
         on_watch_manager];
    destruct (get_service_account_info env g) as [[[e|[]] g1] evs1];
    cbn [result fst]; eauto;
    (destruct (watch_manager g1) as [manager|]; [|cbn [result fst]; eauto]).
  - destruct (WatchManager.renew_watch (manager_env env) manager) as [[[e|res] m'] evs];
      [|destruct res]; cbn [result fst status_is_success]; eauto.
  - destruct (WatchManagerMore.get_watch_status (users_getProfile env) manager)
      as [[[e|res] m'] evs]; [|destruct res]; cbn [result fst status_is_success]; eauto.
  - destruct (WatchManagerMore.stop_watch (manager_env env) manager)
      as [[[e|res] m'] evs]; [|destruct res]; cbn [result fst status_is_success]; eauto.
Qed.

(** X23.  An initialisation that raises after it has set the handler is
    not made again: the watch manager stays unset, later calls of the
    initialisation return at once, and each watch endpoint raises the
    internal error of an attribute read on [None] and leaves the globals
    as they are. *)
Theorem failed_initialisation_is_not_retried (g : globals) (e : raised) :
  let r := get_service_account_info env g in
  watch_manager g = None ->
  result r = inl e ->
  is_Some (gmail_handler (final r)) ->
  watch_manager (final r) = None
  /\ result (get_service_account_info env (final r)) = inr tt
  /\ Forall (fun endpoint : environment -> M watch_result =>
               result (endpoint env (final r))
               = inl (HTTPException 500
                        (DetailInternalError (str_e env (Raised AttributeError))))
               /\ final (endpoint env (final r)) = final r)
            [renew_watch; watch_status; stop_watch].
Proof.
  cbv zeta. intros Hw He Hh.
  destruct (get_service_account_info_run g) as (_ & _ & _ & _ & _ & Hkeep & _).
  specialize (Hkeep e He). rewrite Hw in Hkeep.
  destruct (get_service_account_info_run
              (final (get_service_account_info env g)))
    as (_ & _ & _ & _ & _ & _ & Hagain).
  specialize (Hagain Hh).
  split; [exact Hkeep|]. split; [by rewrite Hagain|].
  repeat constructor;
    cbv [renew_watch watch_status stop_watch bind try_except log ret raise
         on_watch_manager];
    rewrite Hagain, Hkeep; reflexivity.
Qed.

End Service.


(** ** Instances of the further properties *)

Section MoreSampleRuns.
Import Samples MoreSamples.

Lemma get_headers_last_wins_witness :
  lower "Subject" <> "Subject" /\ EmailHeaders.get_headers m1 !! "Subject" = None.
Proof.
  assert (H : lower "Subject" <> "Subject") by (intros E; vm_compute in E; discriminate E).
  split; [exact H|].
  exact (proj2 (get_headers_last_wins m1 "Subject") H).
Defined.

Lemma first_and_last_header_agree_witness :
  GmailHandler.header_value
    (default [] (headers (default empty_part (payload m1)))) "subject" "No Subject"
  = default "No Subject" (EmailHeaders.get_headers m1 !! "subject").
Proof.
  apply (first_and_last_header_agree m1 "subject" "No Subject").
  cbv zeta. cbn [m1 mail payload headers default from_option id].
  intros h1 h2 [<-|[<-|[]]] [<-|[<-|[]]]; vm_compute; intros; first [reflexivity | discriminate].
Defined.

Lemma saved_cursor_is_read_back_witness :
  GmailHandler.usable (GmailHandler.state_file at_1000) = true
  /\ result (GmailHandler.get_last_processed_history_id
               (final (GmailHandler.save_last_processed_history_id "1050" at_1000)))
     = inr (JStr "1050").
Proof.
  assert (H : GmailHandler.usable (GmailHandler.state_file at_1000) = true) by reflexivity.
  split; [exact H|].
  exact (proj1 (proj1 (saved_cursor_is_read_back "1050" "1060" at_1000) H)).
Defined.

Lemma renew_watch_raises_only_on_text_details_witness :
  let r := WatchManager.renew_watch gmail_refusing (WatchManager.Manager false) in
  result r = inl AttributeError
  /\ In (WatchManager.UsersWatch (WatchManagerMore.watch_request_of gmail_refusing))
        (events r).
Proof.
  cbv zeta.
  assert (H : result (WatchManager.renew_watch gmail_refusing (WatchManager.Manager false))
              = inl AttributeError) by reflexivity.
  split; [exact H|].
  exact (proj1 (proj2 (proj1 (renew_watch_raises_only_on_text_details gmail_refusing
                                (WatchManager.Manager false)) AttributeError H))).
Defined.



Lemma escape_html_for_telegram_injective_witness :
  Telegram.escape_html_for_telegram "a<b & c" = "a&lt;b &amp; c"
  /\ "a<b & c" = "a<b & c".
Proof.
  assert (H : Telegram.escape_html_for_telegram "a<b & c"
              = Telegram.escape_html_for_telegram "a<b & c") by reflexivity.
  split; [reflexivity|].
  exact (escape_html_for_telegram_injective "a<b & c" "a<b & c" H).
Defined.

Lemma sent_means_accepted_witness :
  let run := Telegram.send_telegram_message bot (answering accepted_body) attribute_error
               "1 < 2" None None (Some "HTML") true 10 true in
  fst run = Telegram.Sent (JNum 7) (JObj accepted_body) "1 &lt; 2"
  /\ last (snd run) = Some Telegram.LogSent.
Proof.
  cbv zeta.
  assert (H : fst (Telegram.send_telegram_message bot (answering accepted_body)
                     attribute_error "1 < 2" None None (Some "HTML") true 10 true)
              = Telegram.Sent (JNum 7) (JObj accepted_body) "1 &lt; 2") by reflexivity.
  split; [exact H|].
  destruct (sent_means_accepted bot (answering accepted_body) attribute_error
              "1 < 2" None None (Some "HTML") true 10 true
              (JNum 7) (JObj accepted_body) "1 &lt; 2" H)
    as (r & response & m & _ & _ & _ & _ & _ & _ & _ & Hlast).
  exact Hlast.
Defined.

Lemma success_logged_before_result_is_read_witness :
  let run := Telegram.send_telegram_message bot (answering odd_body) attribute_error
               "hello" None None (Some "HTML") true 10 true in
  In Telegram.LogSent (snd run)
  /\ exists sent,
      fst run = Telegram.NotSent
                  (Telegram.UnexpectedError (attribute_error (JStr "queued"))) None sent.
Proof.
  cbv zeta.
  apply (success_logged_before_result_is_read bot (answering odd_body) attribute_error
           "hello" None None (Some "HTML") true 10 true
           (Telegram.Response 200 (inr (JObj odd_body))) odd_body (JStr "queued"));
    first [reflexivity | intros r; reflexivity].
Defined.

Lemma history_id_text_round_trip_witness :
  int (JStr (Main.str (fun _ => "[...]") (JNum 1050))) = inr 1050.
Proof.
  assert (H : Z.abs 1050 < 10 ^ 4300) by (vm_compute; reflexivity).
  exact (proj1 (history_id_text_round_trip (fun _ => "[...]") 1050 "1050" H)).
Defined.

Lemma initialisation_happens_once_witness :
  let r := Main.get_service_account_info (service None) loaded in
  Main.result r = inr tt
  /\ is_Some (Main.gmail_handler (Main.final r)).
Proof.
  cbv zeta.
  assert (H : Main.result (Main.get_service_account_info (service None) loaded) = inr tt)
    by reflexivity.
  split; [exact H|].
  exact (proj1 (initialisation_happens_once (service None) loaded H)).
Defined.

Lemma failed_initialisation_is_not_retried_witness :
  let r := Main.get_service_account_info
             (service (Some (Main.Raised ValueError))) loaded in
  Main.result r = inl (Main.Raised ValueError)
  /\ Main.watch_manager (Main.final r) = None
  /\ Main.result (Main.get_service_account_info
                    (service (Some (Main.Raised ValueError))) (Main.final r))
     = inr tt.
Proof.
  cbv zeta.
  assert (H : Main.result (Main.get_service_account_info
                             (service (Some (Main.Raised ValueError))) loaded)
              = inl (Main.Raised ValueError)) by reflexivity.
  split; [exact H|].
  destruct (failed_initialisation_is_not_retried
              (service (Some (Main.Raised ValueError))) loaded
              (Main.Raised ValueError) eq_refl H (ex_intro _ false eq_refl))
    as (Hw & Hi & _).
  split; [exact Hw | exact Hi].
Defined.

End MoreSampleRuns.

(** ** A state file that cannot be read *)

Section UnreadableStateFile.
Import GmailHandler Samples.

(** C1.  The repeated call is not skipped when the state file exists and
    is not JSON.  The first call with the cursor "1050" delivers [m1] and
    completes, but its save reads the file first, fails on it and leaves
    it as it is; the same call made again, with no new mail, finds no
    stored cursor, is not skipped, fetches the same range and delivers
    [m1] a second time.  The same happens on a state file that holds JSON
    other than an object. *)
Theorem repeated_call_delivers_again :
  let env := mailbox (inr one_added) [] in
  let first := process_history env "1050" unreadable in
  let second := process_history env "1050" (final first) in
  int (JStr "1050") = inr 1050
  /\ deliveries (events first) = [m1]
  /\ result_of (events first) = Some Completed
  /\ last (events first) = Some (Log ERROR (ErrorSavingStateFile JSONDecodeError))
  /\ state_file (final first) = Some Garbage
  /\ result_of (events second) <> Some Skipped
  /\ history_fetches (events second) = [JStr "1050"]
  /\ deliveries (events second) = [m1]
  /\ deliveries
       (events (process_history env "1050"
                  (final (process_history env "1050"
                            (Handler (Some (Doc (JList []))) false)))))
     = [m1].
Proof. vm_compute. repeat split. discriminate. Qed.

(** C3.  The cursor does not advance when the state file exists and is
    not JSON.  In the batch of three added messages whose second fetch
    raises, the first and the third message are delivered and the call
    completes, but the save at the end of the batch fails on the file it
    reads first: the file is left as it is and no cursor is stored, so the
    stored cursor is not the incoming cursor "1050". *)
Theorem cursor_does_not_advance :
  let r := process_history (mailbox (inr three_added) []) "1050" unreadable in
  message_fetches (events r) = ["m1"; "m2"; "m3"]
  /\ deliveries (events r) = [m1; m3]
  /\ result_of (events r) = Some Completed
  /\ last (events r) = Some (Log ERROR (ErrorSavingStateFile JSONDecodeError))
  /\ state_file (final r) = Some Garbage
  /\ stored_cursor (state_file (final r)) = JNull
  /\ stored_cursor (state_file (final r)) <> JStr "1050".
Proof. vm_compute. repeat split. discriminate. Qed.

End UnreadableStateFile.

